(** * GIF to ASCII converter: a shallow embedding of [src/App.tsx]

    The development follows the source file top to bottom:
    JavaScript numbers ([JsNum]), the browser objects the code drives
    ([Dom]: [ImageData], the 2D canvas context), the luminance mapper and
    the grid resampler ([rgbToLum], [imageDataToAscii]), the frame loop of
    [decodeGifFromBytes], and the playback state of the [App] component. *)

From Stdlib Require Import ZArith List Bool String Ascii Lia PeanoNat.
From Stdlib Require Import Floats Uint63.
Import ListNotations.

Set Warnings "-inexact-float".

(** ** JavaScript numbers

    A JavaScript [number] is an IEEE 754 binary64 value.  Rocq's primitive
    [float] is the same format with the same round-to-nearest-even
    arithmetic, so [+], [*] and [/] of the source are [PrimFloat.add],
    [PrimFloat.mul] and [PrimFloat.div], and a decimal literal denotes the
    nearest binary64 value in both languages.  Quantities that the source
    only ever uses as integers (array lengths, canvas sizes, channel values,
    the frame index) are kept in [nat] or [Z]. *)

Module JsNum.

(** The integer [z] as a number (correctly rounded when [z] has more than
    53 significant bits). *)
Definition of_Z (z : Z) : float :=
  SF2Prim (binary_normalize prec emax z 0 false).

Definition of_nat (n : nat) : float := of_Z (Z.of_nat n).

(** [Math.round(x)]: the integer closest to [x], ties going towards
    [+∞]; [NaN], the infinities and the zeros are returned unchanged,
    and a result that rounds to zero from below is [-0].

    A finite non-zero [x] is [± M * 2^(se - 2154)] with
    [M = normfr_mantissa f] in [[2^52, 2^53)] and
    [(f, se) = frshiftexp x].  When [se >= 2154] it is an integer
    already.  Otherwise, with [k = 2154 - se > 0],
    [floor (M / 2^k + 1/2) = (M + 2^(k-1)) >> k] and
    [ceil (M / 2^k - 1/2) = (M + 2^(k-1) - 1) >> k]; both shifts are [0]
    once [k >= 63], which is the right answer for [|x| < 2^-9]. *)
Definition Math_round (x : float) : float :=
  if PrimFloat.is_nan x || PrimFloat.is_infinity x || PrimFloat.is_zero x then x
  else
    let (f, se) := frshiftexp x in
    let M := normfr_mantissa f in
    if (2154 <=? se)%uint63 then x
    else
      let k := (2154 - se)%uint63 in
      let half := (1 << (k - 1))%uint63 in
      if get_sign x then
        let n := ((M + half - 1) >> k)%uint63 in
        if (n =? 0)%uint63 then neg_zero else (- of_uint63 n)%float
      else of_uint63 ((M + half) >> k)%uint63.

(** A reference for [Math.round] on finite numbers: [floor (x + 1/2)],
    computed exactly on the integer mantissa and exponent of [x]. *)
Definition round_half_up (x : float) : option Z :=
  match Prim2SF x with
  | S754_zero _ => Some 0%Z
  | S754_finite s m e =>
      let n := if s then Zneg m else Zpos m in
      Some (if (0 <=? e)%Z then (n * 2 ^ e)%Z
            else ((2 * n + 2 ^ (- e)) / 2 ^ (1 - e))%Z)
  | S754_infinity _ | S754_nan => None
  end.

(** [Math.max(a, b)] and [Math.min(a, b)] for two arguments: [NaN] if
    either is [NaN]; [+0] is larger than [-0]. *)
Definition Math_max (a b : float) : float :=
  if PrimFloat.is_nan a || PrimFloat.is_nan b then nan
  else if (a <? b)%float then b
  else if (b <? a)%float then a
  else if get_sign a then b else a.

Definition Math_min (a b : float) : float :=
  if PrimFloat.is_nan a || PrimFloat.is_nan b then nan
  else if (a <? b)%float then a
  else if (b <? a)%float then b
  else if get_sign a then a else b.

(** The integer part of a finite number (truncation towards zero);
    [None] for [NaN] and the infinities. *)
Definition trunc (x : float) : option Z :=
  match Prim2SF x with
  | S754_zero _ => Some 0%Z
  | S754_finite s m e =>
      let a := if (0 <=? e)%Z then (Zpos m * 2 ^ e)%Z
               else (Zpos m / 2 ^ (- e))%Z in
      Some (if s then (- a)%Z else a)
  | S754_infinity _ | S754_nan => None
  end.

(** Whether a number is an integer value. *)
Definition is_integer (x : float) : bool :=
  match Prim2SF x with
  | S754_zero _ => true
  | S754_finite _ m e =>
      (0 <=? e)%Z || (Zpos m mod 2 ^ (- e) =? 0)%Z
  | S754_infinity _ | S754_nan => false
  end.

(** WebIDL conversion of a number to [[EnforceRange] long], the type of
    the arguments of [getImageData]: [None] stands for the [TypeError]
    raised on a non-finite or out-of-range value. *)
Definition to_long (x : float) : option Z :=
  match trunc x with
  | Some n =>
      if ((- 2147483648 <=? n) && (n <=? 2147483647))%Z then Some n
      else None
  | None => None
  end.

(** [s[i]] for a string [s] and a number [i]: the character at that
    position when [i] is an integer within the string, and [undefined]
    ([None]) otherwise.  ([-0] names property ["0"].) *)
Definition str_at (s : string) (i : float) : option ascii :=
  match trunc i with
  | Some n =>
      if is_integer i && (0 <=? n)%Z then String.get (Z.to_nat n) s
      else None
  | None => None
  end.

(** [row += v] where [v] is the result of a string index: [undefined]
    is appended as its name. *)
Definition append_char (row : string) (v : option ascii) : string :=
  match v with
  | Some c => (row ++ String c EmptyString)%string
  | None => (row ++ "undefined")%string
  end.

End JsNum.

(** ** Browser objects

    [ImageData] and the 2D canvas are browser objects; the code only drives
    them.  They are modelled by their pixel store, as the HTML standard
    describes the four methods the source calls.  Two things the standard
    leaves to the user agent are parameters of the model: what a pixel
    that was written reads back as, and whether an [ImageData] of a given
    size can be allocated. *)

Module Dom.

Inductive DOMException : Type :=
| IndexSizeError
| InvalidStateError
| TypeError
| RangeError.

Inductive result (A : Type) : Type :=
| Ok (a : A)
| Err (e : DOMException).
Arguments Ok {A} a.
Arguments Err {A} e.

Definition bind {A B : Type} (r : result A) (k : A -> result B) : result B :=
  match r with
  | Ok a => k a
  | Err e => Err e
  end.

Record rgba : Type := mkRgba { red : Z; green : Z; blue : Z; alpha : Z }.

Definition transparent_black : rgba := mkRgba 0 0 0 0.

(** Storing into a [Uint8ClampedArray] clamps to [0..255]. *)
Definition clamp8 (z : Z) : Z := Z.max 0 (Z.min 255 z).

Definition clamp_rgba (p : rgba) : rgba :=
  mkRgba (clamp8 (red p)) (clamp8 (green p)) (clamp8 (blue p))
         (clamp8 (alpha p)).

Definition rgba_bytes (p : rgba) : list Z :=
  [red p; green p; blue p; alpha p].

(** [ImageData]: [data] is the flat RGBA byte array, row-major. *)
Record ImageData : Type :=
  mkImageData { data : list Z; width : nat; height : nat }.

(** [new ImageData(data, sw, sh)], in the order of the standard's steps:
    the length must be a non-zero multiple of four, the number of pixels a
    multiple of [sw], and [sh] the resulting number of rows. *)
Definition new_ImageData (d : list Z) (sw sh : nat) : result ImageData :=
  let length := List.length d in
  if (length =? 0) || negb (length mod 4 =? 0) then Err InvalidStateError
  else
    let length := length / 4 in
    if (sw =? 0) || negb (length mod sw =? 0) then Err IndexSizeError
    else if negb (sh =? length / sw) then Err IndexSizeError
    else Ok (mkImageData d sw sh).

(** The pixel of an image at column [x], row [y]. *)
Definition image_pixel (img : ImageData) (x y : nat) : rgba :=
  let i := (y * width img + x) * 4 in
  mkRgba (nth i (data img) 0%Z) (nth (i + 1) (data img) 0%Z)
         (nth (i + 2) (data img) 0%Z) (nth (i + 3) (data img) 0%Z).

(** A [w] by [h] row-major pixel list from a function of the
    coordinates. *)
Definition tabulate {A : Type} (w h : nat) (f : nat -> nat -> A) : list A :=
  map (fun i => f (i mod w) (i / w)) (seq 0 (w * h)).

(** A canvas and its 2D context: the output bitmap. *)
Record Canvas : Type :=
  mkCanvas { cwidth : nat; cheight : nat; bitmap : list rgba }.

(** [document.createElement("canvas")] followed by the assignment of
    [width] and [height]: a transparent black bitmap. *)
Definition createCanvas (w h : nat) : Canvas :=
  mkCanvas w h (repeat transparent_black (w * h)).

Definition pixel_at (c : Canvas) (x y : nat) : rgba :=
  if (x <? cwidth c) && (y <? cheight c)
  then nth (y * cwidth c + x) (bitmap c) transparent_black
  else transparent_black.

Definition in_rect (left top w h x y : nat) : bool :=
  (left <=? x) && (x <? left + w) && (top <=? y) && (y <? top + h).

(** [ctx.clearRect(x, y, w, h)] *)
Definition clearRect (c : Canvas) (x y w h : nat) : Canvas :=
  mkCanvas (cwidth c) (cheight c)
    (tabulate (cwidth c) (cheight c)
       (fun px py =>
          if in_rect x y w h px py then transparent_black
          else pixel_at c px py)).

(** The user agent.  A canvas keeps its pixels with premultiplied alpha,
    and the conversion to and from it loses precision on pixels that are
    not opaque: [stored ua p] is the pixel [getImageData] reads where
    [putImageData] wrote [p].  [can_allocate ua sw sh] tells whether the
    user agent can make the [ImageData] of [sw] by [sh] pixels that
    [getImageData] returns; where it cannot, the call raises. *)
Record UserAgent : Type :=
  mkUserAgent { stored : rgba -> rgba;
                can_allocate : nat -> nat -> bool }.

(** [ctx.putImageData(img, dx, dy)]: the pixels of [img] replace those of
    the bitmap, without blending; what falls outside the canvas is
    dropped.  The bitmap holds each pixel as it will read back. *)
Definition putImageData (ua : UserAgent) (c : Canvas) (img : ImageData)
           (dx dy : nat) : Canvas :=
  mkCanvas (cwidth c) (cheight c)
    (tabulate (cwidth c) (cheight c)
       (fun px py =>
          if in_rect dx dy (width img) (height img) px py
          then stored ua (image_pixel img (px - dx) (py - dy))
          else pixel_at c px py)).

(** [ctx.getImageData(0, 0, sw, sh)]: a copy of the rectangle, pixels
    outside the canvas reading as transparent black.  A zero size raises
    [IndexSizeError]; a failed allocation of the new [ImageData] raises
    [RangeError]. *)
Definition getImageData (ua : UserAgent) (c : Canvas) (sw sh : nat)
  : result ImageData :=
  if (sw =? 0) || (sh =? 0) then Err IndexSizeError
  else if negb (can_allocate ua sw sh) then Err RangeError
  else Ok (mkImageData
             (flat_map rgba_bytes (tabulate sw sh (pixel_at c))) sw sh).

End Dom.

Import Dom.

Declare Scope result_scope.
Delimit Scope result_scope with result.
Notation "x <- r ;; k" := (bind r (fun x => k))
  (at level 61, r at next level, right associativity) : result_scope.
Open Scope result_scope.

(** ** gifuct-js

    [parseGIF] and [decompressFrames] belong to the gifuct-js package; the
    code consumes their result: the logical screen size and, per frame, an
    optional RGBA patch, its placement and its disposal method. *)

Module Gifuct.

Record Dims : Type :=
  mkDims { left : nat; top : nat; width : nat; height : nat }.

Record Frame : Type :=
  mkFrame { patch : option (list Z);
            dims : Dims;
            disposalType : Z;
            delay : Z }.

Record ParsedGif : Type :=
  mkParsedGif { lsd_width : nat;
                lsd_height : nat;
                decompressed : list Frame }.

End Gifuct.

(** ** The source: luminance mapper *)

Definition ASCII_CHARS : string := "@%#*+=-:. ".
Definition DEFAULT_WIDTH : Z := 80.

Definition FrameAscii : Type := list string.

Definition rgbToLum (r g b : float) : float :=
  (0.2126 * r + 0.7152 * g + 0.0722 * b)%float.

(** An element read from a typed array, [undefined] ([None]) beyond its
    end, used as a number. *)
Definition elem_num (v : option Z) : float :=
  match v with
  | Some z => JsNum.of_Z z
  | None => nan
  end.

(** [v < n] for an array element and an integer: the comparison of two
    integers, false on [undefined]. *)
Definition elem_lt (v : option Z) (n : Z) : bool :=
  match v with
  | Some z => (z <? n)%Z
  | None => false
  end.

(** The two lines of the [else] branch that compute [idx]. *)
Definition palette_index (r g b : float) : float :=
  let lum := (rgbToLum r g b / 255)%float in
  JsNum.Math_round
    (lum * (JsNum.of_nat (String.length ASCII_CHARS) - 1))%float.

(** The calls of [rgbToLum] a piece of code makes, in order. *)
Inductive call : Type :=
| CallRgbToLum (r g b : float).

(** The body of the inner loop, from the four channel reads on: the text
    appended to [row], with the calls of [rgbToLum] made on the way. *)
Definition pixel_glyph (r g b a : option Z) (alphaThreshold : Z)
  : string * list call :=
  if elem_lt a alphaThreshold then (" "%string, [])
  else
    let idx := palette_index (elem_num r) (elem_num g) (elem_num b) in
    (JsNum.append_char EmptyString (JsNum.str_at ASCII_CHARS idx),
     [CallRgbToLum (elem_num r) (elem_num g) (elem_num b)]).

(** ** The state of the [App] component

    The [useState] cells of the component.  The frame index is a number
    that stays an integer, except that [i % 0] is [NaN] ([None]). *)

Module App.

Record State : Type :=
  mkState { gifUrl : string;
            frames : option (list FrameAscii);
            width : Z;
            fps : Z;
            playing : bool;
            index : option Z;
            alphaThreshold : Z }.

End App.

Definition initial_state : App.State :=
  App.mkState EmptyString None DEFAULT_WIDTH 12 false (Some 0%Z) 16.

Definition setFrames (v : option (list FrameAscii)) (s : App.State)
  : App.State :=
  App.mkState (App.gifUrl s) v (App.width s) (App.fps s) (App.playing s)
              (App.index s) (App.alphaThreshold s).

Definition setIndex (v : option Z) (s : App.State) : App.State :=
  App.mkState (App.gifUrl s) (App.frames s) (App.width s) (App.fps s)
              (App.playing s) v (App.alphaThreshold s).

Definition setPlaying (v : bool) (s : App.State) : App.State :=
  App.mkState (App.gifUrl s) (App.frames s) (App.width s) (App.fps s) v
              (App.index s) (App.alphaThreshold s).

(** [a % n] and [a + n] on the frame index. *)
Definition js_rem (a : option Z) (n : Z) : option Z :=
  match a with
  | Some z => if (n =? 0)%Z then None else Some (Z.rem z n)
  | None => None
  end.

Definition js_add (a : option Z) (n : Z) : option Z :=
  match a with
  | Some z => Some (z + n)%Z
  | None => None
  end.

(** ** The source: grid resampler and frame loop *)

Section Pipeline.

(** The interpolation of [drawImage] is the browser's choice:
    [scale_filter src dw dh x y] is the colour it gives pixel [(x, y)]
    of the [dw] by [dh] destination when it scales the raster [src]. *)
Variable scale_filter : ImageData -> nat -> nat -> nat -> nat -> rgba.

Variable ua : UserAgent.

(** What [getImageData(0, 0, sw, sh)] reads from a canvas onto which
    [imgData] was scaled to [sw] by [sh]: the scaled pixels, as bytes,
    for a positive size; a negative size selects a rectangle of
    [|sw|] by [|sh|] pixels that lies outside the canvas, which reads as
    transparent black. *)
Definition scaled_raster (imgData : ImageData) (sw sh : Z) : ImageData :=
  let rw := Z.abs_nat sw in
  let rh := Z.abs_nat sh in
  mkImageData
    (flat_map rgba_bytes
       (tabulate rw rh
          (fun x y =>
             if ((0 <? sw) && (0 <? sh))%Z
             then clamp_rgba (scale_filter imgData rw rh x y)
             else transparent_black)))
    rw rh.

(** Lines 19 to 30 of [imageDataToAscii]: the two scratch canvases, the
    scaling [drawImage] and the final [getImageData(0, 0, targetWidth,
    targetHeight)].  [drawImage] raises [InvalidStateError] on a source
    canvas without pixels; [getImageData] raises [TypeError] on a size
    that is not a [long], [IndexSizeError] on a zero size and [RangeError]
    when the [ImageData] of [|targetWidth|] by [|targetHeight|] pixels
    cannot be allocated. *)
Definition resize (imgData : ImageData) (targetWidth : Z)
           (targetHeight : float) : result ImageData :=
  if (width imgData =? 0) || (height imgData =? 0)
  then Err InvalidStateError
  else
    match JsNum.to_long targetHeight with
    | None => Err TypeError
    | Some sh =>
        if negb ((- 2147483648 <=? targetWidth)
                 && (targetWidth <=? 2147483647))%Z
        then Err TypeError
        else if ((targetWidth =? 0) || (sh =? 0))%Z then Err IndexSizeError
        else if negb (can_allocate ua (Z.abs_nat targetWidth) (Z.abs_nat sh))
             then Err RangeError
             else Ok (scaled_raster imgData targetWidth sh)
    end.

(** One row of the character grid: the inner loop over [x]. *)
Definition ascii_row (resized : ImageData) (alphaThreshold : Z) (y : nat)
  : string :=
  fold_left
    (fun row x =>
       let i := (y * width resized + x) * 4 in
       let r := nth_error (data resized) i in
       let g := nth_error (data resized) (i + 1) in
       let b := nth_error (data resized) (i + 2) in
       let a := nth_error (data resized) (i + 3) in
       (row ++ fst (pixel_glyph r g b a alphaThreshold))%string)
    (seq 0 (width resized)) EmptyString.

Definition imageDataToAscii (imgData : ImageData) (width : Z)
           (alphaThreshold : Z) : result FrameAscii :=
  let w := Dom.width imgData in
  let h := Dom.height imgData in
  let ratio := (JsNum.of_nat h / JsNum.of_nat w)%float in
  let targetWidth := width in
  let targetHeight :=
    JsNum.Math_max 1
      (JsNum.Math_round (ratio * JsNum.of_Z targetWidth * 0.5))%float in
  resized <- resize imgData targetWidth targetHeight ;;
  Ok (fold_left
        (fun lines y => lines ++ [ascii_row resized alphaThreshold y])
        (seq 0 (height resized)) []).

(** The disposal at the end of the loop body of [decodeGifFromBytes]. *)
Definition dispose (ctx : Canvas) (f : Gifuct.Frame) : Canvas :=
  let d := Gifuct.dims f in
  if (Gifuct.disposalType f =? 2)%Z then
    clearRect ctx (Gifuct.left d) (Gifuct.top d)
              (Gifuct.width d) (Gifuct.height d)
  else if (Gifuct.disposalType f =? 3)%Z then
    clearRect ctx (Gifuct.left d) (Gifuct.top d)
              (Gifuct.width d) (Gifuct.height d)
  else ctx.

(** The write of the patch at the head of the loop body. *)
Definition draw_patch (ctx : Canvas) (f : Gifuct.Frame) : result Canvas :=
  match Gifuct.patch f with
  | Some p =>
      let d := Gifuct.dims f in
      imageData <- new_ImageData (map clamp8 p)
                     (Gifuct.width d) (Gifuct.height d) ;;
      Ok (putImageData ua ctx imageData (Gifuct.left d) (Gifuct.top d))
  | None => Ok ctx
  end.

(** One iteration of [for (const f of decompressed)]: the canvas and the
    list [asciiFrames] are the loop's mutable state.  [full] is returned
    as well, for the statements about the snapshot. *)
Definition frame_step (logicalWidth logicalHeight : nat)
           (width alphaThreshold : Z)
           (ctx : Canvas) (f : Gifuct.Frame)
  : result (ImageData * FrameAscii * Canvas) :=
  ctx1 <- draw_patch ctx f ;;
  full <- getImageData ua ctx1 logicalWidth logicalHeight ;;
  ascii <- imageDataToAscii full width alphaThreshold ;;
  Ok (full, ascii, dispose ctx1 f).

Fixpoint render_frames (logicalWidth logicalHeight : nat)
         (width alphaThreshold : Z)
         (ctx : Canvas) (asciiFrames : list FrameAscii)
         (fs : list Gifuct.Frame) {struct fs}
  : result (list FrameAscii * Canvas) :=
  match fs with
  | [] => Ok (asciiFrames, ctx)
  | f :: rest =>
      step <- frame_step logicalWidth logicalHeight width alphaThreshold
                ctx f ;;
      let '(_, ascii, ctx') := step in
      render_frames logicalWidth logicalHeight width alphaThreshold
        ctx' (asciiFrames ++ [ascii]) rest
  end.

(** [decodeGifFromBytes], from the result of gifuct-js on.  An exception
    leaves the state as it was. *)
Definition decodeGifFromBytes (gif : Gifuct.ParsedGif) (s : App.State)
  : result App.State :=
  let logicalWidth := Gifuct.lsd_width gif in
  let logicalHeight := Gifuct.lsd_height gif in
  let canvas := createCanvas logicalWidth logicalHeight in
  let ctx := clearRect canvas 0 0 logicalWidth logicalHeight in
  out <- render_frames logicalWidth logicalHeight
           (App.width s) (App.alphaThreshold s) ctx []
           (Gifuct.decompressed gif) ;;
  let asciiFrames := fst out in
  Ok (setIndex (Some 0%Z) (setFrames (Some asciiFrames) s)).

End Pipeline.

(** ** The source: playback *)

(** The callback of [window.setInterval]; the timer exists only while
    [frames] is set and [playing] holds. *)
Definition timer_tick (s : App.State) : App.State :=
  match App.frames s with
  | Some fs =>
      if App.playing s
      then setIndex (js_rem (js_add (App.index s) 1)
                            (Z.of_nat (List.length fs))) s
      else s
  | None => s
  end.

(** The [Prev] and [Next] buttons (disabled while [frames] is null). *)
Definition click_prev (s : App.State) : App.State :=
  match App.frames s with
  | Some fs =>
      let n := Z.of_nat (List.length fs) in
      setIndex (js_rem (js_add (js_add (App.index s) (-1)) n) n) s
  | None => s
  end.

Definition click_next (s : App.State) : App.State :=
  match App.frames s with
  | Some fs =>
      setIndex (js_rem (js_add (App.index s) 1) (Z.of_nat (List.length fs))) s
  | None => s
  end.

(** The [Play] and [Stop] buttons. *)
Definition click_play (s : App.State) : App.State :=
  match App.frames s with
  | Some _ => setPlaying true s
  | None => s
  end.

Definition click_stop (s : App.State) : App.State :=
  match App.frames s with
  | Some _ => setPlaying false s
  | None => s
  end.

(** The events that change the frame index. *)
Inductive index_event : Type :=
| Tick
| Prev
| Next.

Definition handle (e : index_event) (s : App.State) : App.State :=
  match e with
  | Tick => timer_tick s
  | Prev => click_prev s
  | Next => click_next s
  end.

(** ** Definitions that follow the specification's words *)

(** Section 4.1: [round(L_normalized * (paletteLength - 1))], clamped into
    [[0, paletteLength - 1]], with
    [L = 0.2126 R + 0.7152 G + 0.0722 B] and [L_normalized = L / 255]. *)
Definition spec_luminance (R G B : float) : float :=
  (0.2126 * R + 0.7152 * G + 0.0722 * B)%float.

Definition spec_palette_index (R G B : float) : float :=
  let L_normalized := (spec_luminance R G B / 255)%float in
  JsNum.Math_min
    (JsNum.Math_max (JsNum.Math_round (L_normalized * 9)) 0) 9.

(** Section 4.3: [H = max(1, round((sourceHeight / sourceWidth) * W * 0.5))]. *)
Definition spec_grid_height (sourceWidth sourceHeight : nat) (W : Z) : float :=
  JsNum.Math_max 1
    (JsNum.Math_round
       (JsNum.of_nat sourceHeight / JsNum.of_nat sourceWidth
        * JsNum.of_Z W * 0.5))%float.

(** ** Support for the exhaustive check of the luminance mapper *)

(** The 256 channel values, as numbers. *)
Definition byte_nums : list float :=
  map JsNum.of_Z (map Z.of_nat (seq 0 256)).

(** Palette index [k] is chosen exactly for the luminances [L] with
    [lo <= L] and not [hi <= L]; the bounds are the midpoints
    [255 (2k - 1) / 18] to four decimals. *)
Definition index_table : list (float * (float * float)) :=
  [ (0, (0, 14.1667)); (1, (14.1667, 42.5)); (2, (42.5, 70.8333));
    (3, (70.8333, 99.1667)); (4, (99.1667, 127.5));
    (5, (127.5, 155.8333)); (6, (155.8333, 184.1667));
    (7, (184.1667, 212.5)); (8, (212.5, 240.8333));
    (9, (240.8333, infinity)) ]%float.

Definition index_of_lum (L : float) : float :=
  JsNum.Math_round (L / 255 * 9)%float.

Fixpoint band_ok (L idx : float) (table : list (float * (float * float)))
  : bool :=
  match table with
  | [] => false
  | (k, (lo, hi)) :: rest =>
      if PrimFloat.Leibniz.eqb idx k
      then (lo <=? L)%float && negb (hi <=? L)%float
      else band_ok L idx rest
  end.

Definition triple_ok (r g b : float) : bool :=
  let L := rgbToLum r g b in
  band_ok L (index_of_lum L) index_table.

Definition all_triples (nums : list float) : bool :=
  forallb (fun r => forallb (fun g => forallb (triple_ok r g) nums) nums) nums.

(** Numbers on which [Math_round] is compared with its reference: the
    half-integers up to 11.5 with their two neighbours, of both signs, the
    scaled luminances of the 256 greys, and numbers around [2^52]. *)
Definition round_samples : list float :=
  flat_map
    (fun k =>
       let h := (JsNum.of_Z k + 0.5)%float in
       [h; next_down h; next_up h; - h; next_down (- h); next_up (- h);
        JsNum.of_Z k; JsNum.of_Z k * 0.37]%float)
    (map Z.of_nat (seq 0 12))
  ++ map (fun c => (rgbToLum c c c / 255 * 9)%float) byte_nums
  ++ [4503599627370495.5; 4503599627370496; 4503599627370497;
      (-4503599627370495.5); 2251799813685247.5; 1e-320; (-1e-320);
      1e300; (-1e300)]%float.

Definition round_agrees (x : float) : bool :=
  match JsNum.round_half_up x with
  | Some n => (JsNum.Math_round x =? JsNum.of_Z n)%float
  | None => false
  end.

(** The values a [Uint8ClampedArray] holds. *)
Definition is_byte (z : Z) : Prop := (0 <= z <= 255)%Z.

(** A concrete interpolation for the examples: nearest neighbour. *)
Definition nearest_neighbour (src : ImageData) (dw dh x y : nat) : rgba :=
  image_pixel src (x * width src / dw) (y * height src / dh).

(** A concrete user agent for the examples.  Its bitmap holds the colour
    channels multiplied by alpha over 255, rounded to nearest, and reads
    them back divided by it: an opaque pixel is kept, a pixel of alpha 0
    reads back as transparent black.  It allocates an [ImageData] of up
    to [2^31 - 1] bytes. *)
Definition premultiplied (p : rgba) : rgba :=
  let a := alpha p in
  if (a =? 0)%Z then transparent_black
  else
    let back c := Z.min 255 (((c * a + 127) / 255 * 255 + a / 2) / a) in
    mkRgba (back (red p)) (back (green p)) (back (blue p)) a.

Definition example_agent : UserAgent :=
  mkUserAgent premultiplied
    (fun sw sh => (Z.of_nat sw * Z.of_nat sh * 4 <=? 2147483647)%Z).

(** ** Well-formed input and variants of an input *)

(** What gifuct-js delivers: a patch, when present, has at least one pixel
    and four bytes for each pixel of its rectangle. *)
Definition wf_frame (f : Gifuct.Frame) : Prop :=
  match Gifuct.patch f with
  | Some p =>
      1 <= Gifuct.width (Gifuct.dims f)
      /\ 1 <= Gifuct.height (Gifuct.dims f)
      /\ List.length p
         = 4 * (Gifuct.width (Gifuct.dims f) * Gifuct.height (Gifuct.dims f))
  | None => True
  end.

(** The frame [f] with another disposal method. *)
Definition with_disposal (d : Z) (f : Gifuct.Frame) : Gifuct.Frame :=
  Gifuct.mkFrame (Gifuct.patch f) (Gifuct.dims f) d (Gifuct.delay f).

(** The animation [gif] with other frames. *)
Definition with_frames (fs : list Gifuct.Frame) (gif : Gifuct.ParsedGif)
  : Gifuct.ParsedGif :=
  Gifuct.mkParsedGif (Gifuct.lsd_width gif) (Gifuct.lsd_height gif) fs.

(** ** Example inputs

    The scenario of the specification's section 8: a 4 by 4 logical canvas,
    an opaque black 4 by 4 patch at (0, 0) that is kept, then an opaque
    white 2 by 2 patch at (1, 1) that is restored to the background. *)
Definition solid (p : rgba) (n : nat) : list Z :=
  flat_map rgba_bytes (repeat p n).

Definition frame_black : Gifuct.Frame :=
  Gifuct.mkFrame (Some (solid (mkRgba 0 0 0 255) 16))
                 (Gifuct.mkDims 0 0 4 4) 1 100.

Definition frame_white : Gifuct.Frame :=
  Gifuct.mkFrame (Some (solid (mkRgba 255 255 255 255) 4))
                 (Gifuct.mkDims 1 1 2 2) 2 100.

Definition scenario_gif : Gifuct.ParsedGif :=
  Gifuct.mkParsedGif 4 4 [frame_black; frame_white].

Definition image_black : ImageData :=
  mkImageData (solid (mkRgba 0 0 0 255) 16) 4 4.

(** A component that plays an earlier two-frame animation at its second
    frame, with output width 4, and the same component once the scenario
    above has been loaded into it. *)
Definition busy_state : App.State :=
  App.mkState EmptyString (Some [["%"]; ["#"]]%string) 4 12 true (Some 1%Z) 16.

Definition busy_state_after : App.State :=
  App.mkState EmptyString
             (Some [["@@@@"; "@@@@"]; ["@@@@"; "@  @"]]%string)
             4 12 true (Some 0%Z) 16.

(** A stopped component that shows the first of three frames. *)
Definition paused_state : App.State :=
  App.mkState EmptyString (Some [["@"]; ["%"]; ["#"]]%string) 80 12 false
              (Some 0%Z) 16.

(** ** The source: timer period, inputs, frame editor and preview *)

(** Lines 15 to 17 of [imageDataToAscii]: the number of rows asked for,
    for a raster of [w] by [h] pixels. *)
Definition targetHeight (w h : nat) (width : Z) : float :=
  let ratio := (JsNum.of_nat h / JsNum.of_nat w)%float in
  let targetWidth := width in
  JsNum.Math_max 1
    (JsNum.Math_round (ratio * JsNum.of_Z targetWidth * 0.5))%float.

(** The period of the timer, in milliseconds:
    [Math.max(1, Math.round(1000 / fps))]. *)
Definition timer_delay (fps : Z) : float :=
  JsNum.Math_max 1 (JsNum.Math_round (1000 / JsNum.of_Z fps))%float.

(** [parseInt(text) || d]: the parsed integer, or [d] when the text is not
    a number ([NaN], here [None]) or is zero, which are both falsy. *)
Definition or_default (parsed : option Z) (d : Z) : Z :=
  match parsed with
  | Some 0%Z => d
  | Some z => z
  | None => d
  end.

Definition setGifUrl (v : string) (s : App.State) : App.State :=
  App.mkState v (App.frames s) (App.width s) (App.fps s) (App.playing s)
              (App.index s) (App.alphaThreshold s).

Definition setWidth (v : Z) (s : App.State) : App.State :=
  App.mkState (App.gifUrl s) (App.frames s) v (App.fps s) (App.playing s)
              (App.index s) (App.alphaThreshold s).

Definition setFps (v : Z) (s : App.State) : App.State :=
  App.mkState (App.gifUrl s) (App.frames s) (App.width s) v (App.playing s)
              (App.index s) (App.alphaThreshold s).

Definition setAlphaThreshold (v : Z) (s : App.State) : App.State :=
  App.mkState (App.gifUrl s) (App.frames s) (App.width s) (App.fps s)
              (App.playing s) (App.index s) v.

(** The [onChange] handlers of the three number inputs; [parsed] is the
    result of [parseInt(e.target.value)]. *)
Definition change_width (parsed : option Z) (s : App.State) : App.State :=
  setWidth (or_default parsed DEFAULT_WIDTH) s.

Definition change_fps (parsed : option Z) (s : App.State) : App.State :=
  setFps (or_default parsed 12) s.

Definition change_alphaThreshold (parsed : option Z) (s : App.State)
  : App.State :=
  setAlphaThreshold (or_default parsed 16) s.

Definition newline : ascii := "010"%char.

(** [rows.join("\n")] *)
Fixpoint join_lines (rows : list string) : string :=
  match rows with
  | [] => EmptyString
  | [r] => r
  | r :: rest => (r ++ String newline (join_lines rest))%string
  end.

(** [text.split("\n")]: the pieces between the line feeds, at least one. *)
Fixpoint split_lines (text : string) : list string :=
  match text with
  | EmptyString => [EmptyString]
  | String c rest =>
      if Ascii.eqb c newline then EmptyString :: split_lines rest
      else
        match split_lines rest with
        | r :: rs => String c r :: rs
        | [] => [String c EmptyString]
        end
  end.

(** A row without a line feed. *)
Definition no_newline (row : string) : Prop :=
  ~ In newline (list_ascii_of_string row).

(** [frames[index]]: [undefined] ([None]) when the index is [NaN],
    negative or not below the length. *)
Definition frame_at (fs : list FrameAscii) (i : option Z)
  : option FrameAscii :=
  match i with
  | Some z => if (z <? 0)%Z then None else nth_error fs (Z.to_nat z)
  | None => None
  end.

(** [newFrames[index] = lines] on a copy of the array: an index within
    the array replaces the element and the index [length] appends.  An
    index that is [NaN] or negative names an ordinary property and a
    larger one leaves holes: the result is then no longer a plain list of
    frames, which is [None] here. *)
Definition array_assign {A : Type} (l : list A) (i : option Z) (v : A)
  : option (list A) :=
  match i with
  | None => None
  | Some z =>
      if (z <? 0)%Z then None
      else if (z <? Z.of_nat (List.length l))%Z
           then Some (firstn (Z.to_nat z) l ++ v :: skipn (S (Z.to_nat z)) l)
           else if (z =? Z.of_nat (List.length l))%Z then Some (l ++ [v])
                else None
  end.

(** [applyFrameEdit]: [None] when the new frame list is not a plain
    list. *)
Definition applyFrameEdit (text : string) (s : App.State)
  : option App.State :=
  match App.frames s with
  | None => Some s
  | Some fs =>
      let lines := split_lines text in
      match array_assign fs (App.index s) lines with
      | Some newFrames => Some (setFrames (Some newFrames) s)
      | None => None
      end
  end.

(** The text of the preview pane, and the initial text of the editor:
    [frames ? frames[index].join("\n") : ...].  Calling [join] on
    [undefined] raises a [TypeError]. *)
Definition frame_text (s : App.State) (placeholder : string)
  : result string :=
  match App.frames s with
  | Some fs =>
      match frame_at fs (App.index s) with
      | Some grid => Ok (join_lines grid)
      | None => Err TypeError
      end
  | None => Ok placeholder
  end.

Definition preview (s : App.State) : result string :=
  frame_text s "No frames yet.".

(** The events of the component. *)
Inductive ui_event : Type :=
| UiTick
| UiPrev
| UiNext
| UiPlay
| UiStop
| UiUrl (v : string)
| UiWidth (parsed : option Z)
| UiFps (parsed : option Z)
| UiAlpha (parsed : option Z)
| UiDecode (gif : Gifuct.ParsedGif)
| UiEdit (text : string).

(** Whether the component renders in a state: the preview pane and the
    editor evaluate the same expression, and an exception there takes the
    component down. *)
Definition renders (s : App.State) : bool :=
  match preview s with
  | Ok _ => true
  | Err _ => false
  end.

(** The state after an event.  Events reach the component only while it
    renders.  A decoding that raises leaves the state as it was. *)
Definition ui_step
           (scale_filter : ImageData -> nat -> nat -> nat -> nat -> rgba)
           (ua : UserAgent)
           (e : ui_event) (s : App.State) : option App.State :=
  if renders s then
    match e with
    | UiTick => Some (timer_tick s)
    | UiPrev => Some (click_prev s)
    | UiNext => Some (click_next s)
    | UiPlay => Some (click_play s)
    | UiStop => Some (click_stop s)
    | UiUrl v => Some (setGifUrl v s)
    | UiWidth parsed => Some (change_width parsed s)
    | UiFps parsed => Some (change_fps parsed s)
    | UiAlpha parsed => Some (change_alphaThreshold parsed s)
    | UiDecode gif =>
        match decodeGifFromBytes scale_filter ua gif s with
        | Ok s' => Some s'
        | Err _ => Some s
        end
    | UiEdit text => applyFrameEdit text s
    end
  else None.

(** The states the component can be in. *)
Inductive reachable
          (scale_filter : ImageData -> nat -> nat -> nat -> nat -> rgba)
          (ua : UserAgent)
  : App.State -> Prop :=
| reachable_initial : reachable scale_filter ua initial_state
| reachable_step (e : ui_event) (s s' : App.State) :
    reachable scale_filter ua s ->
    ui_step scale_filter ua e s = Some s' ->
    reachable scale_filter ua s'.

(** A grid the editor can show and take back: at least one row, and no
    line feed in a row. *)
Definition grid_ok (grid : FrameAscii) : Prop :=
  grid <> [] /\ Forall no_newline grid.

(** What holds of every state: the three numeric settings are never zero;
    before the first animation the index is 0 and nothing plays; with
    [N > 0] frames the index is an integer in [[0, N)] and every frame is
    a grid as above; with an empty frame list the index is 0. *)
Definition state_ok (s : App.State) : Prop :=
  App.width s <> 0%Z /\ App.fps s <> 0%Z /\ App.alphaThreshold s <> 0%Z
  /\ match App.frames s with
     | None => App.index s = Some 0%Z /\ App.playing s = false
     | Some [] => App.index s = Some 0%Z
     | Some fs =>
         (exists i, App.index s = Some i
                    /\ (0 <= i < Z.of_nat (List.length fs))%Z)
         /\ Forall grid_ok fs
     end.

(** The pixel of frame [f]'s patch that lands on canvas position [(x, y)]. *)
Definition patch_pixel (f : Gifuct.Frame) (p : list Z) (x y : nat) : rgba :=
  image_pixel
    (mkImageData (map clamp8 p) (Gifuct.width (Gifuct.dims f))
                 (Gifuct.height (Gifuct.dims f)))
    (x - Gifuct.left (Gifuct.dims f)) (y - Gifuct.top (Gifuct.dims f)).

Definition in_patch (f : Gifuct.Frame) (x y : nat) : bool :=
  match Gifuct.patch f with
  | Some _ =>
      in_rect (Gifuct.left (Gifuct.dims f)) (Gifuct.top (Gifuct.dims f))
              (Gifuct.width (Gifuct.dims f)) (Gifuct.height (Gifuct.dims f))
              x y
  | None => false
  end.

(** Whether the frame's rectangle is cleared after its snapshot. *)
Definition clears (f : Gifuct.Frame) (x y : nat) : bool :=
  ((Gifuct.disposalType f =? 2)%Z || (Gifuct.disposalType f =? 3)%Z)
  && in_rect (Gifuct.left (Gifuct.dims f)) (Gifuct.top (Gifuct.dims f))
             (Gifuct.width (Gifuct.dims f)) (Gifuct.height (Gifuct.dims f))
             x y.

(** The parts of the result of an iteration of the frame loop. *)
Definition step_full (r : result (ImageData * FrameAscii * Canvas))
  : ImageData :=
  match r with
  | Ok (full, _, _) => full
  | Err _ => mkImageData [] 0 0
  end.

Definition step_ascii (r : result (ImageData * FrameAscii * Canvas))
  : FrameAscii :=
  match r with
  | Ok (_, ascii, _) => ascii
  | Err _ => []
  end.

Definition step_canvas (r : result (ImageData * FrameAscii * Canvas))
  : Canvas :=
  match r with
  | Ok (_, _, ctx) => ctx
  | Err _ => createCanvas 0 0
  end.

(** The two iterations of the example scenario, evaluated. *)
Definition scenario_step1 : result (ImageData * FrameAscii * Canvas) :=
  Eval vm_compute in
    frame_step nearest_neighbour example_agent 4 4 4 16 (createCanvas 4 4)
               frame_black.

Definition scenario_step2 : result (ImageData * FrameAscii * Canvas) :=
  Eval vm_compute in
    frame_step nearest_neighbour example_agent 4 4 4 16
               (step_canvas scenario_step1) frame_white.

(** The conditions under which an iteration of the frame loop can
    succeed: a logical screen of at least one pixel, of which the
    snapshot can be allocated, an output width that is a non-zero [long],
    and a target height that is a [long], for which the resized raster
    can be allocated. *)
Definition can_render (ua : UserAgent) (logicalWidth logicalHeight : nat)
           (width : Z) : Prop :=
  1 <= logicalWidth /\ 1 <= logicalHeight
  /\ can_allocate ua logicalWidth logicalHeight = true
  /\ (- 2147483648 <= width <= 2147483647)%Z /\ width <> 0%Z
  /\ exists H, JsNum.to_long
                 (targetHeight logicalWidth logicalHeight width) = Some H
               /\ can_allocate ua (Z.abs_nat width) (Z.abs_nat H) = true.

(** The frame rates of the exhaustive check of the timer period. *)
Definition fps_range : list Z := map Z.of_nat (seq 1 4000).

Definition delay_ok (fps : Z) : bool :=
  match JsNum.to_long (timer_delay fps) with
  | Some n => (n =? Z.max 1 ((2000 + fps) / (2 * fps)))%Z
  | None => false
  end
  && PrimFloat.Leibniz.eqb (timer_delay (- fps)) 1.


(** The state after the width is set to 4 and the example scenario is
    loaded. *)
Definition loaded_state : App.State :=
  Eval vm_compute in
    match ui_step nearest_neighbour example_agent (UiDecode scenario_gif)
                  (change_width (Some 4%Z) initial_state) with
    | Some s => s
    | None => initial_state
    end.

(** ** Tactics *)

(** Settle a boolean test of the code from the arithmetic in context. *)
Ltac test_true t :=
  replace t with true
    by (symmetry;
        first [ apply Nat.ltb_lt | apply Nat.leb_le | apply Nat.eqb_eq
              | apply Z.ltb_lt | apply Z.leb_le | apply Z.eqb_eq ];
        lia).

Ltac test_false t :=
  replace t with false
    by (symmetry;
        first [ apply Nat.ltb_ge | apply Nat.leb_gt | apply Nat.eqb_neq
              | apply Z.ltb_ge | apply Z.leb_gt | apply Z.eqb_neq ];
        lia).

(** * Properties *)

Example Math_round_ties :
  map JsNum.Math_round
      [2.5; 2.4; 3.5; (-2.5); (-2.6); 0.49999999999999994; 4503599627370497;
       1e300; 8.5; 0.5]%float
  = [3; 2; 4; (-2); (-3); 0; 4503599627370497; 1e300; 9; 1]%float.
Proof. vm_compute. reflexivity. Qed.

Example Math_round_zeros :
  map (fun x => Prim2SF (JsNum.Math_round x))
      [0; (-0); (-0.5); (-0.2); 0.2; 5e-324; nan; infinity]%float
  = [S754_zero false; S754_zero true; S754_zero true; S754_zero true;
     S754_zero false; S754_zero false; S754_nan; S754_infinity false].
Proof. vm_compute. reflexivity. Qed.

Example Math_round_is_round_half_up :
  List.length round_samples = 361
  /\ forallb round_agrees round_samples = true.
Proof. split; vm_compute; reflexivity. Qed.

Example of_Z_small :
  map JsNum.of_Z [0; 1; 255; 80; (-3)]%Z = [0; 1; 255; 80; (-3)]%float.
Proof. vm_compute. reflexivity. Qed.

Example str_at_examples :
  map (JsNum.str_at "@%#*+=-:. ") [0; 9; 10; (-1); 2.5; nan; (-0)]%float
  = [Some "@"%char; Some " "%char; None; None; None; None; Some "@"%char].
Proof. vm_compute. reflexivity. Qed.

(** ** The luminance mapper on all [256^3] colours *)

Lemma all_triples_ok : all_triples byte_nums = true.
Proof. vm_compute. reflexivity. Qed.

(** Lookup in the table: the index, and the band of the luminance. *)
Lemma band_ok_spec (L idx : float) (table : list (float * (float * float))) :
  band_ok L idx table = true ->
  exists lo hi, In (idx, (lo, hi)) table
                /\ (lo <=? L)%float = true /\ (hi <=? L)%float = false.
Proof.
  induction table as [ | [k [lo hi]] rest IH]; simpl; [discriminate | ].
  destruct (PrimFloat.Leibniz.eqb idx k) eqn:E.
  - apply FloatAxioms.Leibniz.eqb_spec in E. subst k.
    intros H. apply andb_true_iff in H. destruct H as [H1 H2].
    apply negb_true_iff in H2. exists lo, hi. auto.
  - intros H. destruct (IH H) as (lo' & hi' & Hin & H1 & H2).
    exists lo', hi'. auto.
Qed.

Lemma byte_num_in (z : Z) : is_byte z -> In (JsNum.of_Z z) byte_nums.
Proof.
  intros Hz. unfold byte_nums. apply in_map, in_map_iff.
  exists (Z.to_nat z). split; [ | apply in_seq ]; unfold is_byte in Hz; lia.
Qed.

Lemma all_triples_spec (nums : list float) :
  all_triples nums = true ->
  forall r g b, In r nums -> In g nums -> In b nums -> triple_ok r g b = true.
Proof.
  unfold all_triples. intros H r g b Hr Hg Hb.
  rewrite forallb_forall in H. specialize (H r Hr).
  rewrite forallb_forall in H. specialize (H g Hg).
  rewrite forallb_forall in H. exact (H b Hb).
Qed.

Lemma triple_ok_bytes (r g b : Z) :
  is_byte r -> is_byte g -> is_byte b ->
  triple_ok (JsNum.of_Z r) (JsNum.of_Z g) (JsNum.of_Z b) = true.
Proof.
  intros Hr Hg Hb.
  apply (all_triples_spec byte_nums all_triples_ok);
    apply byte_num_in; assumption.
Qed.

Lemma palette_length_minus_one :
  (JsNum.of_nat (String.length ASCII_CHARS) - 1)%float = 9%float.
Proof. vm_compute. reflexivity. Qed.

Lemma palette_index_of_lum (r g b : float) :
  palette_index r g b = index_of_lum (rgbToLum r g b).
Proof.
  unfold palette_index, index_of_lum.
  rewrite palette_length_minus_one. reflexivity.
Qed.

(** Every colour falls in one band of the table. *)
Lemma palette_index_band (r g b : Z) :
  is_byte r -> is_byte g -> is_byte b ->
  let L := rgbToLum (JsNum.of_Z r) (JsNum.of_Z g) (JsNum.of_Z b) in
  exists lo hi,
    In (palette_index (JsNum.of_Z r) (JsNum.of_Z g) (JsNum.of_Z b), (lo, hi))
       index_table
    /\ (lo <=? L)%float = true /\ (hi <=? L)%float = false.
Proof.
  intros Hr Hg Hb L. rewrite palette_index_of_lum.
  apply band_ok_spec. exact (triple_ok_bytes r g b Hr Hg Hb).
Qed.

(** ** Order of numbers *)

Lemma SFleb_trans (a b c : spec_float) :
  SFleb a b = true -> SFleb b c = true -> SFleb a c = true.
Proof.
  unfold SFleb, SFcompare.
  destruct a as [sa | sa | | sa ma ea], b as [sb | sb | | sb mb eb],
        c as [sc | sc | | sc mc ec];
    try destruct sa; try destruct sb; try destruct sc;
    try reflexivity; try discriminate;
    destruct (Z.compare_spec ea eb), (Z.compare_spec eb ec),
             (Z.compare_spec ea ec);
    subst; try reflexivity; try discriminate; try lia;
    rewrite <- ?Pos.compare_cont_spec, ?Pos.compare_cont_Eq;
    fold (Pos.compare ma mb); fold (Pos.compare mb mc);
    fold (Pos.compare ma mc);
    destruct (Pos.compare_spec ma mb), (Pos.compare_spec mb mc),
             (Pos.compare_spec ma mc);
    subst; simpl; try reflexivity; try discriminate; try lia.
Qed.

Lemma num_leb_trans (x y z : float) :
  (x <=? y)%float = true -> (y <=? z)%float = true -> (x <=? z)%float = true.
Proof. rewrite !FloatAxioms.leb_spec. apply SFleb_trans. Qed.

(** ** The palette index *)

(** Each index of the table is a position of the palette, and clamping it
    into [[0, 9]] changes nothing. *)
Lemma index_table_in_palette (k lo hi : float) :
  In (k, (lo, hi)) index_table ->
  exists n : nat,
    n <= 9 /\ k = JsNum.of_nat n
    /\ JsNum.Math_min (JsNum.Math_max k 0) 9 = k
    /\ exists c, String.get n ASCII_CHARS = Some c
                 /\ JsNum.str_at ASCII_CHARS k = Some c.
Proof.
  unfold index_table. intros H.
  repeat (destruct H as [H | H];
          [injection H as <- _ _; clear | ]); [ .. | contradiction ].
  1: exists 0. 2: exists 1. 3: exists 2. 4: exists 3. 5: exists 4.
  6: exists 5. 7: exists 6. 8: exists 7. 9: exists 8. 10: exists 9.
  all: split; [lia | ];
    split; [vm_compute; reflexivity | ];
    split; [vm_compute; reflexivity | ];
    eexists; split; vm_compute; reflexivity.
Qed.

(** The table is ordered: a luminance below the band of [k2] and inside or
    above the band of [k1] forces [k1 <= k2]. *)
Lemma index_table_monotone (k1 lo1 hi1 k2 lo2 hi2 L1 L2 : float) :
  In (k1, (lo1, hi1)) index_table ->
  In (k2, (lo2, hi2)) index_table ->
  (lo1 <=? L1)%float = true ->
  (hi2 <=? L2)%float = false ->
  (L1 <=? L2)%float = true ->
  (k1 <=? k2)%float = true.
Proof.
  unfold index_table. intros H1 H2 Hlo Hhi HL.
  assert (Hlo2 : (lo1 <=? L2)%float = true)
    by (apply num_leb_trans with L1; assumption).
  clear Hlo HL L1.
  repeat (destruct H1 as [H1 | H1];
          [injection H1 as <- <- _ | ]); [ .. | contradiction ];
    repeat (destruct H2 as [H2 | H2];
            [injection H2 as <- _ <- | ]); try contradiction;
    first
      [ vm_compute; reflexivity
      | exfalso;
        match type of Hhi with
        | (?h <=? _)%float = false =>
            match type of Hlo2 with
            | (?l <=? _)%float = true =>
                assert (Hx : (h <=? L2)%float = true)
                  by (apply num_leb_trans with l;
                      [vm_compute; reflexivity | exact Hlo2])
            end
        end;
        congruence ].
Qed.

(** C10: for channels in 0..255 the computed index is one of 0, ..., 9,
    so the lookup [ASCII_CHARS[idx]], which the code does not clamp, never
    leaves the ten-character palette. *)
Theorem palette_lookup_in_bounds (r g b : Z) :
  is_byte r -> is_byte g -> is_byte b ->
  let idx := palette_index (JsNum.of_Z r) (JsNum.of_Z g) (JsNum.of_Z b) in
  (0.2126 + 0.7152 + 0.0722)%float = 1%float
  /\ exists n : nat,
       n <= 9 /\ n < String.length ASCII_CHARS
       /\ idx = JsNum.of_nat n
       /\ exists c, JsNum.str_at ASCII_CHARS idx = Some c.
Proof.
  intros Hr Hg Hb idx. split; [vm_compute; reflexivity | ].
  destruct (palette_index_band r g b Hr Hg Hb) as (lo & hi & Hin & _ & _).
  destruct (index_table_in_palette _ _ _ Hin) as (n & Hn & Hk & _ & c & _ & Hc).
  exists n. repeat split; try assumption.
  - simpl. lia.
  - exists c. exact Hc.
Qed.

Lemma palette_lookup_in_bounds_witness :
  is_byte 255 /\ is_byte 128 /\ is_byte 0
  /\ (0.2126 + 0.7152 + 0.0722)%float = 1%float
  /\ exists n : nat,
       n <= 9 /\ n < String.length ASCII_CHARS
       /\ palette_index (JsNum.of_Z 255) (JsNum.of_Z 128) (JsNum.of_Z 0)
          = JsNum.of_nat n
       /\ exists c,
            JsNum.str_at ASCII_CHARS
              (palette_index (JsNum.of_Z 255) (JsNum.of_Z 128) (JsNum.of_Z 0))
            = Some c.
Proof.
  assert (H255 : is_byte 255) by (unfold is_byte; lia).
  assert (H128 : is_byte 128) by (unfold is_byte; lia).
  assert (H0 : is_byte 0) by (unfold is_byte; lia).
  repeat (split; [assumption | ]).
  exact (palette_lookup_in_bounds 255 128 0 H255 H128 H0).
Defined.

(** The specification's clamped index is the code's index. *)
Lemma spec_palette_index_agrees (r g b : Z) :
  is_byte r -> is_byte g -> is_byte b ->
  spec_palette_index (JsNum.of_Z r) (JsNum.of_Z g) (JsNum.of_Z b)
  = palette_index (JsNum.of_Z r) (JsNum.of_Z g) (JsNum.of_Z b).
Proof.
  intros Hr Hg Hb.
  destruct (palette_index_band r g b Hr Hg Hb) as (lo & hi & Hin & _ & _).
  destruct (index_table_in_palette _ _ _ Hin) as (n & _ & _ & Hclamp & _).
  rewrite palette_index_of_lum in Hclamp |- *. exact Hclamp.
Qed.

(** C3: a pixel with channels in 0..255 whose alpha is not below the
    threshold is mapped to the character of the palette ["@%#*+=-:. "] at
    [round(((0.2126 R + 0.7152 G + 0.0722 B) / 255) * 9)] clamped into
    [[0, 9]]. *)
Theorem opaque_pixel_glyph (r g b a alphaThreshold : Z) :
  is_byte r -> is_byte g -> is_byte b -> (alphaThreshold <= a)%Z ->
  let idx :=
    spec_palette_index (JsNum.of_Z r) (JsNum.of_Z g) (JsNum.of_Z b) in
  String.length ASCII_CHARS = 10
  /\ exists (n : nat) (c : ascii),
       n <= 9 /\ idx = JsNum.of_nat n
       /\ String.get n ASCII_CHARS = Some c
       /\ fst (pixel_glyph (Some r) (Some g) (Some b) (Some a) alphaThreshold)
          = String c EmptyString.
Proof.
  intros Hr Hg Hb Ha idx. split; [reflexivity | ].
  subst idx. rewrite (spec_palette_index_agrees r g b Hr Hg Hb).
  destruct (palette_index_band r g b Hr Hg Hb) as (lo & hi & Hin & _ & _).
  destruct (index_table_in_palette _ _ _ Hin)
    as (n & Hn & Hk & _ & c & Hget & Hc).
  exists n, c. repeat split; try assumption.
  unfold pixel_glyph, elem_lt, elem_num.
  test_false (a <? alphaThreshold)%Z.
  cbn [fst]. rewrite Hc. reflexivity.
Qed.

Lemma opaque_pixel_glyph_witness :
  is_byte 10 /\ is_byte 51 /\ is_byte 54 /\ (16 <= 255)%Z
  /\ String.length ASCII_CHARS = 10
  /\ exists (n : nat) (c : ascii),
       n <= 9
       /\ spec_palette_index (JsNum.of_Z 10) (JsNum.of_Z 51) (JsNum.of_Z 54)
          = JsNum.of_nat n
       /\ String.get n ASCII_CHARS = Some c
       /\ fst (pixel_glyph (Some 10%Z) (Some 51%Z) (Some 54%Z) (Some 255%Z) 16)
          = String c EmptyString.
Proof.
  assert (H10 : is_byte 10) by (unfold is_byte; lia).
  assert (H51 : is_byte 51) by (unfold is_byte; lia).
  assert (H54 : is_byte 54) by (unfold is_byte; lia).
  assert (Ha : (16 <= 255)%Z) by lia.
  repeat (split; [assumption | ]).
  exact (opaque_pixel_glyph 10 51 54 255 16 H10 H51 H54 Ha).
Defined.

(** The index is the one binary64 arithmetic gives.  For the colour
    (10, 51, 54) the decimal formula is exactly 1.5, which rounds to 2;
    the products and sums of the code give the luminance
    42.49999999999999, and the index 1. *)
Remark index_is_computed_in_binary64 :
  ((2126 * 10 + 7152 * 51 + 722 * 54) * 9 * 2 = 3 * (10000 * 255))%Z
  /\ rgbToLum (JsNum.of_Z 10) (JsNum.of_Z 51) (JsNum.of_Z 54)
     = 42.49999999999999%float
  /\ palette_index (JsNum.of_Z 10) (JsNum.of_Z 51) (JsNum.of_Z 54)
     = 1%float
  /\ rgbToLum (JsNum.of_Z 255) (JsNum.of_Z 255) (JsNum.of_Z 255)
     = 254.99999999999997%float.
Proof. repeat split; vm_compute; reflexivity. Qed.

(** C8: the palette index never decreases when the computed luminance
    grows. *)
Theorem palette_index_monotone (r1 g1 b1 r2 g2 b2 : Z) :
  is_byte r1 -> is_byte g1 -> is_byte b1 ->
  is_byte r2 -> is_byte g2 -> is_byte b2 ->
  (rgbToLum (JsNum.of_Z r1) (JsNum.of_Z g1) (JsNum.of_Z b1)
   <=? rgbToLum (JsNum.of_Z r2) (JsNum.of_Z g2) (JsNum.of_Z b2))%float = true ->
  (palette_index (JsNum.of_Z r1) (JsNum.of_Z g1) (JsNum.of_Z b1)
   <=? palette_index (JsNum.of_Z r2) (JsNum.of_Z g2) (JsNum.of_Z b2))%float
  = true.
Proof.
  intros Hr1 Hg1 Hb1 Hr2 Hg2 Hb2 HL.
  destruct (palette_index_band r1 g1 b1 Hr1 Hg1 Hb1)
    as (lo1 & hi1 & Hin1 & Hlo1 & _).
  destruct (palette_index_band r2 g2 b2 Hr2 Hg2 Hb2)
    as (lo2 & hi2 & Hin2 & _ & Hhi2).
  exact (index_table_monotone _ _ _ _ _ _ _ _ Hin1 Hin2 Hlo1 Hhi2 HL).
Qed.

Lemma palette_index_monotone_witness :
  is_byte 10 /\ is_byte 51 /\ is_byte 54
  /\ is_byte 200 /\ is_byte 100 /\ is_byte 50
  /\ (rgbToLum (JsNum.of_Z 10) (JsNum.of_Z 51) (JsNum.of_Z 54)
      <=? rgbToLum (JsNum.of_Z 200) (JsNum.of_Z 100) (JsNum.of_Z 50))%float
     = true
  /\ (palette_index (JsNum.of_Z 10) (JsNum.of_Z 51) (JsNum.of_Z 54)
      <=? palette_index (JsNum.of_Z 200) (JsNum.of_Z 100) (JsNum.of_Z 50))%float
     = true.
Proof.
  assert (H10 : is_byte 10) by (unfold is_byte; lia).
  assert (H51 : is_byte 51) by (unfold is_byte; lia).
  assert (H54 : is_byte 54) by (unfold is_byte; lia).
  assert (H200 : is_byte 200) by (unfold is_byte; lia).
  assert (H100 : is_byte 100) by (unfold is_byte; lia).
  assert (H50 : is_byte 50) by (unfold is_byte; lia).
  assert (HL : (rgbToLum (JsNum.of_Z 10) (JsNum.of_Z 51) (JsNum.of_Z 54)
                <=? rgbToLum (JsNum.of_Z 200) (JsNum.of_Z 100)
                             (JsNum.of_Z 50))%float = true)
    by (vm_compute; reflexivity).
  repeat (split; [assumption | ]).
  exact (palette_index_monotone 10 51 54 200 100 50
           H10 H51 H54 H200 H100 H50 HL).
Defined.

(** C5: a pixel whose alpha is below the threshold gives a space, whatever
    its colour channels hold, and [rgbToLum] is not called for it; the
    threshold the component starts with is 16. *)
Theorem transparent_pixel_glyph (r g b : option Z) (a alphaThreshold : Z) :
  (a < alphaThreshold)%Z ->
  pixel_glyph r g b (Some a) alphaThreshold = (" "%string, [])
  /\ App.alphaThreshold initial_state = 16%Z.
Proof.
  intros Ha. split; [ | reflexivity ].
  unfold pixel_glyph, elem_lt.
  test_true (a <? alphaThreshold)%Z.
  reflexivity.
Qed.

Lemma transparent_pixel_glyph_witness :
  (15 < 16)%Z
  /\ pixel_glyph (Some 255%Z) None (Some 7%Z) (Some 15%Z) 16
     = (" "%string, [])
  /\ App.alphaThreshold initial_state = 16%Z.
Proof.
  split; [lia | ].
  apply (transparent_pixel_glyph (Some 255%Z) None (Some 7%Z) 15 16). lia.
Defined.

(** ** Pixel stores *)

Lemma tabulate_length {A : Type} (w h : nat) (f : nat -> nat -> A) :
  List.length (tabulate w h f) = w * h.
Proof. unfold tabulate. rewrite length_map, length_seq. reflexivity. Qed.

Lemma row_major_index (w h x y : nat) :
  x < w -> y < h ->
  y * w + x < w * h /\ (y * w + x) mod w = x /\ (y * w + x) / w = y.
Proof.
  intros Hx Hy. repeat split.
  - nia.
  - rewrite Nat.add_comm, Nat.Div0.mod_add. apply Nat.mod_small. exact Hx.
  - rewrite Nat.add_comm, Nat.div_add by lia.
    rewrite Nat.div_small by exact Hx. reflexivity.
Qed.

Lemma nth_error_tabulate {A : Type} (w h : nat) (f : nat -> nat -> A)
      (x y : nat) :
  x < w -> y < h -> nth_error (tabulate w h f) (y * w + x) = Some (f x y).
Proof.
  intros Hx Hy. destruct (row_major_index w h x y Hx Hy) as (Hi & Hm & Hd).
  unfold tabulate. rewrite nth_error_map, nth_error_seq.
  apply Nat.ltb_lt in Hi. rewrite Hi. cbn [option_map].
  rewrite Nat.add_0_l, Hm, Hd. reflexivity.
Qed.

Lemma pixel_at_tabulate (w h : nat) (f : nat -> nat -> rgba) (x y : nat) :
  x < w -> y < h -> pixel_at (mkCanvas w h (tabulate w h f)) x y = f x y.
Proof.
  intros Hx Hy. unfold pixel_at. cbn [cwidth cheight bitmap].
  apply Nat.ltb_lt in Hx as Hx'. apply Nat.ltb_lt in Hy as Hy'.
  rewrite Hx', Hy'. cbn [andb].
  apply nth_error_nth. apply nth_error_tabulate; assumption.
Qed.

(** The four bytes of pixel [i] in a flat RGBA array. *)
Lemma nth_error_rgba_bytes (l : list rgba) (i : nat) (p : rgba) :
  nth_error l i = Some p ->
  nth_error (flat_map rgba_bytes l) (i * 4) = Some (red p)
  /\ nth_error (flat_map rgba_bytes l) (i * 4 + 1) = Some (green p)
  /\ nth_error (flat_map rgba_bytes l) (i * 4 + 2) = Some (blue p)
  /\ nth_error (flat_map rgba_bytes l) (i * 4 + 3) = Some (alpha p).
Proof.
  revert i. induction l as [ | q l IH]; intros [ | i] H; try discriminate.
  - injection H as ->. cbn. auto.
  - cbn [nth_error] in H. specialize (IH i H).
    cbn [flat_map rgba_bytes]. cbn [app].
    replace (S i * 4) with (S (S (S (S (i * 4))))) by lia.
    cbn [Nat.add nth_error]. exact IH.
Qed.

Lemma flat_rgba_length (l : list rgba) :
  List.length (flat_map rgba_bytes l) = 4 * List.length l.
Proof.
  induction l as [ | q l IH]; [reflexivity | ].
  cbn [flat_map]. rewrite length_app, IH. cbn [rgba_bytes List.length]. lia.
Qed.

(** Reading back the pixel of a flat array built from a table. *)
Lemma image_pixel_tabulate (w h : nat) (f : nat -> nat -> rgba) (x y : nat) :
  x < w -> y < h ->
  image_pixel (mkImageData (flat_map rgba_bytes (tabulate w h f)) w h) x y
  = f x y.
Proof.
  intros Hx Hy. unfold image_pixel. cbn [data width].
  destruct (nth_error_rgba_bytes _ _ _ (nth_error_tabulate w h f x y Hx Hy))
    as (Hr & Hg & Hb & Ha).
  rewrite (nth_error_nth _ _ _ Hr), (nth_error_nth _ _ _ Hg),
          (nth_error_nth _ _ _ Hb), (nth_error_nth _ _ _ Ha).
  destruct (f x y); reflexivity.
Qed.

(** ** Loops that push *)

Lemma fold_left_push {A B : Type} (f : A -> B) (l : list A) (acc : list B) :
  fold_left (fun lines y => lines ++ [f y]) l acc = acc ++ map f l.
Proof.
  revert acc. induction l as [ | a l IH]; intros acc; cbn [fold_left map].
  - rewrite app_nil_r. reflexivity.
  - rewrite IH, <- app_assoc. reflexivity.
Qed.

Lemma string_length_append (s t : string) :
  String.length (s ++ t) = String.length s + String.length t.
Proof. induction s as [ | c s IH]; cbn; [ | rewrite IH ]; reflexivity. Qed.

Lemma fold_left_append_length {A : Type} (g : A -> string) (l : list A)
      (row : string) :
  (forall x, In x l -> String.length (g x) = 1) ->
  String.length (fold_left (fun row x => (row ++ g x)%string) l row)
  = String.length row + List.length l.
Proof.
  revert row. induction l as [ | a l IH]; intros row Hg; cbn [fold_left].
  - cbn. lia.
  - rewrite IH by (intros x Hx; apply Hg; right; exact Hx).
    rewrite string_length_append, (Hg a) by (left; reflexivity).
    cbn [List.length]. lia.
Qed.

(** ** The target height is at least one *)

Lemma digits2_pos_lower (m : positive) :
  (2 ^ (Zpos (digits2_pos m) - 1) <= Zpos m)%Z.
Proof.
  induction m as [p IH | p IH | ]; cbn [digits2_pos].
  - rewrite Pos2Z.inj_succ, (Pos2Z.inj_xI p).
    replace (Z.succ (Zpos (digits2_pos p)) - 1)%Z
      with (Z.succ (Zpos (digits2_pos p) - 1))%Z by lia.
    rewrite Z.pow_succ_r by lia. lia.
  - rewrite Pos2Z.inj_succ, (Pos2Z.inj_xO p).
    replace (Z.succ (Zpos (digits2_pos p)) - 1)%Z
      with (Z.succ (Zpos (digits2_pos p) - 1))%Z by lia.
    rewrite Z.pow_succ_r by lia. lia.
  - change (2 ^ 0 <= 1)%Z. rewrite Z.pow_0_r. lia.
Qed.

(** A number above one has an integer part of at least one. *)
Lemma trunc_above_one (x : float) (n : Z) :
  (1 <? x)%float = true -> JsNum.trunc x = Some n -> (1 <= n)%Z.
Proof.
  intros Hlt Htr. rewrite FloatAxioms.ltb_spec in Hlt.
  pose proof (Prim2SF_valid x) as Hv.
  unfold JsNum.trunc in Htr.
  replace (Prim2SF 1) with (S754_finite false 4503599627370496 (-52)) in Hlt
    by (vm_compute; reflexivity).
  destruct (Prim2SF x) as [s | s | | s m e]; try discriminate.
  unfold SFltb, SFcompare in Hlt.
  destruct s; [discriminate | ].
  assert (Hn : n = if (0 <=? e)%Z then (Zpos m * 2 ^ e)%Z
                      else (Zpos m / 2 ^ (- e))%Z)
    by (cbv beta iota zeta in Htr; congruence).
  subst n. clear Htr.
  destruct (Z.leb_spec 0 e) as [He | He].
  - pose proof (Z.pow_pos_nonneg 2 e ltac:(lia) He). nia.
  - assert (Hm : (-52 <= e)%Z /\ (2 ^ 52 <= Zpos m)%Z).
    { destruct (Z.compare_spec (-52) e) as [Heq | Hlt' | Hgt];
        try discriminate.
      - subst e. split; [lia | ].
        change (PosDef.Pos.compare_cont Eq 4503599627370496 m)
          with (Pos.compare 4503599627370496 m) in Hlt.
        destruct (Pos.compare_spec 4503599627370496 m); try discriminate.
        change (2 ^ 52)%Z with (Zpos 4503599627370496). lia.
      - split; [lia | ].
        cbn [valid_binary] in Hv. unfold bounded, canonical_mantissa in Hv.
        apply andb_true_iff in Hv. destruct Hv as [Hc _].
        apply Z.eqb_eq in Hc. unfold fexp, emin in Hc.
        change prec with 53%Z in Hc. change emax with 1024%Z in Hc.
        assert (Hd : Zpos (digits2_pos m) = 53%Z).
        { destruct (Z.max_spec (Zpos (digits2_pos m) + e - 53)
                               (3 - 1024 - 53)) as [[_ Hmax] | [_ Hmax]];
            rewrite Hmax in Hc; clear - Hc Hlt'; lia. }
        pose proof (digits2_pos_lower m) as Hl. rewrite Hd in Hl.
        exact Hl. }
    destruct Hm as [He52 Hm].
    assert (Hp : (2 ^ (- e) <= 2 ^ 52)%Z)
      by (apply Z.pow_le_mono_r; lia).
    apply Z.div_le_lower_bound; [apply Z.pow_pos_nonneg; lia | lia].
Qed.

Lemma Math_max_one_long (x : float) (n : Z) :
  JsNum.to_long (JsNum.Math_max 1 x) = Some n -> (1 <= n)%Z.
Proof.
  unfold JsNum.Math_max.
  replace (PrimFloat.is_nan 1) with false by (vm_compute; reflexivity).
  replace (get_sign 1) with false by (vm_compute; reflexivity).
  cbn [orb].
  assert (Hone : JsNum.to_long 1 = Some n -> (1 <= n)%Z).
  { replace (JsNum.to_long 1) with (Some 1%Z) by (vm_compute; reflexivity).
    intros H. injection H as <-. lia. }
  destruct (PrimFloat.is_nan x).
  - replace (JsNum.to_long nan) with (@None Z) by (vm_compute; reflexivity).
    discriminate.
  - destruct (1 <? x)%float eqn:Hlt.
    + unfold JsNum.to_long. destruct (JsNum.trunc x) as [t | ] eqn:Ht;
        [ | discriminate ].
      destruct ((-2147483648 <=? t) && (t <=? 2147483647))%Z;
        [ | discriminate ].
      intros H. injection H as <-. exact (trunc_above_one x t Hlt Ht).
    + destruct (x <? 1)%float; exact Hone.
Qed.

(** ** The grid resampler *)

Lemma clamp8_is_byte (z : Z) : is_byte (clamp8 z).
Proof. unfold is_byte, clamp8. lia. Qed.

(** Every glyph of a pixel with byte channels is one character. *)
Lemma pixel_glyph_length (r g b a alphaThreshold : Z) :
  is_byte r -> is_byte g -> is_byte b ->
  String.length
    (fst (pixel_glyph (Some r) (Some g) (Some b) (Some a) alphaThreshold)) = 1.
Proof.
  intros Hr Hg Hb. unfold pixel_glyph, elem_lt, elem_num.
  destruct (a <? alphaThreshold)%Z; [reflexivity | ].
  destruct (palette_index_band r g b Hr Hg Hb) as (lo & hi & Hin & _ & _).
  destruct (index_table_in_palette _ _ _ Hin) as (n & _ & _ & _ & c & _ & Hc).
  cbn [fst]. rewrite Hc. reflexivity.
Qed.

Section Resampler.

Variable scale_filter : ImageData -> nat -> nat -> nat -> nat -> rgba.
Variable ua : UserAgent.

Lemma resize_ok (imgData : ImageData) (targetWidth sh : Z)
      (targetHeight : float) :
  1 <= width imgData -> 1 <= height imgData ->
  (1 <= targetWidth <= 2147483647)%Z ->
  JsNum.to_long targetHeight = Some sh -> (1 <= sh)%Z ->
  can_allocate ua (Z.abs_nat targetWidth) (Z.abs_nat sh) = true ->
  resize scale_filter ua imgData targetWidth targetHeight
  = Ok (scaled_raster scale_filter imgData targetWidth sh).
Proof.
  intros Hw Hh HW Hlong Hsh Halloc. unfold resize.
  test_false (width imgData =? 0).
  test_false (height imgData =? 0).
  cbn [orb]. rewrite Hlong.
  test_true (-2147483648 <=? targetWidth)%Z.
  test_true (targetWidth <=? 2147483647)%Z.
  test_false (targetWidth =? 0)%Z.
  test_false (sh =? 0)%Z.
  rewrite Halloc. reflexivity.
Qed.

Lemma ascii_row_length (imgData : ImageData) (targetWidth sh : Z)
      (alphaThreshold : Z) (y : nat) :
  (1 <= targetWidth)%Z -> (1 <= sh)%Z -> y < Z.abs_nat sh ->
  String.length
    (ascii_row (scaled_raster scale_filter imgData targetWidth sh)
               alphaThreshold y)
  = Z.abs_nat targetWidth.
Proof.
  intros HW Hsh Hy. unfold ascii_row.
  set (resized := scaled_raster scale_filter imgData targetWidth sh).
  rewrite (fold_left_append_length
             (fun x =>
                let i := (y * width resized + x) * 4 in
                fst (pixel_glyph (nth_error (data resized) i)
                                 (nth_error (data resized) (i + 1))
                                 (nth_error (data resized) (i + 2))
                                 (nth_error (data resized) (i + 3))
                                 alphaThreshold))).
  - rewrite length_seq. reflexivity.
  - intros x Hx. apply in_seq in Hx. cbv zeta.
    assert (Hxw : x < Z.abs_nat targetWidth) by (cbn in Hx; lia).
    subst resized. unfold scaled_raster. cbn [data width].
    match goal with
    | |- context [tabulate ?w ?h ?f] =>
        destruct (nth_error_rgba_bytes _ _ _
                    (nth_error_tabulate w h f x y Hxw Hy))
          as (Er & Eg & Eb & Ea)
    end.
    rewrite Er, Eg, Eb, Ea.
    test_true (0 <? targetWidth)%Z.
    test_true (0 <? sh)%Z.
    cbn [andb clamp_rgba red green blue alpha].
    apply pixel_glyph_length; apply clamp8_is_byte.
Qed.

(** The grid [imageDataToAscii] returns, row by row. *)
Lemma imageDataToAscii_ok (imgData : ImageData) (W alphaThreshold n : Z) :
  1 <= width imgData -> 1 <= height imgData ->
  (1 <= W <= 2147483647)%Z ->
  JsNum.to_long (spec_grid_height (width imgData) (height imgData) W)
  = Some n ->
  can_allocate ua (Z.to_nat W) (Z.to_nat n) = true ->
  (1 <= n)%Z
  /\ imageDataToAscii scale_filter ua imgData W alphaThreshold
     = Ok (map (ascii_row (scaled_raster scale_filter imgData W n)
                          alphaThreshold)
               (seq 0 (Z.abs_nat n))).
Proof.
  intros Hw Hh HW Hlong Halloc.
  assert (Hn : (1 <= n)%Z) by exact (Math_max_one_long _ _ Hlong).
  split; [exact Hn | ].
  unfold imageDataToAscii. cbv zeta.
  unfold spec_grid_height in Hlong.
  rewrite <- !Zabs2Nat.abs_nat_nonneg in Halloc by lia.
  rewrite (resize_ok imgData W n _ Hw Hh HW Hlong Hn Halloc).
  cbn [bind]. rewrite fold_left_push. reflexivity.
Qed.

End Resampler.

(** C4, amended: for a raster of at least one pixel and an output width
    [W] from 1 to [2^31 - 1] for which
    [H = max(1, round((h / w) * W * 0.5))] is a canvas size, and for which
    the user agent can allocate the [W] by [H] pixels that
    [getImageData] returns, the resampler returns exactly [H] rows, [H]
    being at least 1, each of exactly [W] characters. *)
Theorem grid_dimensions
        (scale_filter : ImageData -> nat -> nat -> nat -> nat -> rgba)
        (ua : UserAgent)
        (imgData : ImageData) (W alphaThreshold H : Z) :
  1 <= width imgData -> 1 <= height imgData ->
  (1 <= W <= 2147483647)%Z ->
  JsNum.to_long (spec_grid_height (width imgData) (height imgData) W)
  = Some H ->
  can_allocate ua (Z.to_nat W) (Z.to_nat H) = true ->
  exists grid : FrameAscii,
    imageDataToAscii scale_filter ua imgData W alphaThreshold = Ok grid
    /\ (1 <= H)%Z
    /\ List.length grid = Z.to_nat H
    /\ Forall (fun row => String.length row = Z.to_nat W) grid.
Proof.
  intros Hw Hh HW Hlong Halloc.
  destruct (imageDataToAscii_ok scale_filter ua imgData W alphaThreshold H
              Hw Hh HW Hlong Halloc) as [HH Hgrid].
  eexists. split; [exact Hgrid | ]. split; [exact HH | ].
  rewrite <- !Zabs2Nat.abs_nat_nonneg by lia. split.
  - rewrite length_map, length_seq. reflexivity.
  - apply Forall_forall. intros row Hrow. apply in_map_iff in Hrow.
    destruct Hrow as (y & <- & Hy). apply in_seq in Hy.
    apply ascii_row_length; lia.
Qed.

Lemma grid_dimensions_witness :
  1 <= width image_black /\ 1 <= height image_black
  /\ (1 <= 4 <= 2147483647)%Z
  /\ JsNum.to_long (spec_grid_height (width image_black)
                                     (height image_black) 4) = Some 2%Z
  /\ can_allocate example_agent (Z.to_nat 4) (Z.to_nat 2) = true
  /\ exists grid : FrameAscii,
       imageDataToAscii nearest_neighbour example_agent image_black 4 16
       = Ok grid
       /\ (1 <= 2)%Z
       /\ List.length grid = Z.to_nat 2
       /\ Forall (fun row => String.length row = Z.to_nat 4) grid.
Proof.
  assert (Hw : 1 <= width image_black) by (cbn; lia).
  assert (Hh : 1 <= height image_black) by (cbn; lia).
  assert (HW : (1 <= 4 <= 2147483647)%Z) by lia.
  assert (HH : JsNum.to_long (spec_grid_height (width image_black)
                                (height image_black) 4) = Some 2%Z)
    by (vm_compute; reflexivity).
  assert (Ha : can_allocate example_agent (Z.to_nat 4) (Z.to_nat 2) = true)
    by reflexivity.
  repeat (split; [assumption || lia | ]).
  exact (grid_dimensions nearest_neighbour example_agent image_black 4 16 2
           Hw Hh HW HH Ha).
Defined.

(** C4 as the specification words it does not hold: a zero [W] is not
    floored to 1, [getImageData] raises [IndexSizeError] and no grid is
    made. *)
Lemma grid_dimensions_zero_width :
  imageDataToAscii nearest_neighbour example_agent image_black 0 16
  = Err IndexSizeError
  /\ ~ (exists grid : FrameAscii,
          imageDataToAscii nearest_neighbour example_agent image_black 0 16
          = Ok grid
          /\ Forall (fun row => String.length row = 1) grid).
Proof.
  assert (E : imageDataToAscii nearest_neighbour example_agent image_black 0 16
              = Err IndexSizeError) by (vm_compute; reflexivity).
  split; [exact E | ].
  intros (grid & Hgrid & _). rewrite E in Hgrid. discriminate.
Qed.

(** A computed height of zero becomes one row; a width of minus five
    reads five transparent columns. *)
Example height_floored_to_one :
  JsNum.Math_round (JsNum.of_nat 1 / JsNum.of_nat 100 * JsNum.of_Z 4 * 0.5)
  = 0%float
  /\ JsNum.to_long (spec_grid_height 100 1 4) = Some 1%Z
  /\ imageDataToAscii nearest_neighbour example_agent image_black (-5) 16
     = Ok ["     "%string].
Proof. repeat split; vm_compute; reflexivity. Qed.

(** A grid too large to allocate: a raster of one pixel at width 70000
    asks for 70000 by 35000 pixels, and [getImageData] raises. *)
Example wide_grid_raises :
  imageDataToAscii nearest_neighbour example_agent
                   (mkImageData [0; 0; 0; 255]%Z 1 1) 70000 16
  = Err RangeError.
Proof. vm_compute. reflexivity. Qed.

Example scenario_first_grid :
  imageDataToAscii nearest_neighbour example_agent image_black 4 16
  = Ok ["@@@@"%string; "@@@@"%string].
Proof. vm_compute. reflexivity. Qed.

(** ** The frame loop *)

Section FrameLoop.

Variable scale_filter : ImageData -> nat -> nat -> nat -> nat -> rgba.
Variable ua : UserAgent.
Variables logicalWidth logicalHeight : nat.
Variables width alphaThreshold : Z.

Lemma draw_patch_ok (ctx : Canvas) (f : Gifuct.Frame) :
  wf_frame f -> exists ctx1, draw_patch ua ctx f = Ok ctx1.
Proof.
  unfold wf_frame, draw_patch, new_ImageData.
  destruct (Gifuct.patch f) as [p | ]; [ | intros _; eexists; reflexivity ].
  set (w := Gifuct.width (Gifuct.dims f)).
  set (h := Gifuct.height (Gifuct.dims f)).
  intros (Hw & Hh & Hlen). cbv zeta. rewrite length_map, Hlen.
  rewrite (Nat.mul_comm 4 (w * h)), Nat.Div0.mod_mul, Nat.div_mul by lia.
  rewrite (Nat.mul_comm w h), Nat.Div0.mod_mul, Nat.div_mul by lia.
  test_false (h * w * 4 =? 0). test_false (w =? 0).
  rewrite !Nat.eqb_refl. cbn. eexists. reflexivity.
Qed.

(** A snapshot is made only of a size that is not zero and can be
    allocated. *)
Lemma getImageData_inv (c : Canvas) (sw sh : nat) (full : ImageData) :
  getImageData ua c sw sh = Ok full ->
  1 <= sw /\ 1 <= sh /\ can_allocate ua sw sh = true.
Proof.
  unfold getImageData.
  destruct (sw =? 0) eqn:Ew; [discriminate | ].
  destruct (sh =? 0) eqn:Eh; [discriminate | ].
  cbn [orb]. destruct (can_allocate ua sw sh); [ | discriminate ].
  intros _. apply Nat.eqb_neq in Ew, Eh. repeat split; lia.
Qed.

(** The full-canvas snapshot holds the pixels of the canvas. *)
Lemma getImageData_pixels (c : Canvas) (full : ImageData) :
  getImageData ua c logicalWidth logicalHeight = Ok full ->
  Dom.width full = logicalWidth /\ Dom.height full = logicalHeight
  /\ forall x y, x < logicalWidth -> y < logicalHeight ->
                 image_pixel full x y = pixel_at c x y.
Proof.
  unfold getImageData.
  destruct ((logicalWidth =? 0) || (logicalHeight =? 0)); [discriminate | ].
  destruct (negb (can_allocate ua logicalWidth logicalHeight));
    [discriminate | ].
  intros H. injection H as <-. repeat split.
  intros x y Hx Hy. apply image_pixel_tabulate; assumption.
Qed.

Lemma clearRect_pixels (c : Canvas) (left top w h x y : nat) :
  x < cwidth c -> y < cheight c ->
  pixel_at (clearRect c left top w h) x y
  = if in_rect left top w h x y then transparent_black else pixel_at c x y.
Proof.
  intros Hx Hy. unfold clearRect.
  rewrite pixel_at_tabulate by assumption. reflexivity.
Qed.

Lemma putImageData_pixels (c : Canvas) (img : ImageData) (dx dy x y : nat) :
  x < cwidth c -> y < cheight c ->
  pixel_at (putImageData ua c img dx dy) x y
  = if in_rect dx dy (Dom.width img) (Dom.height img) x y
    then stored ua (image_pixel img (x - dx) (y - dy))
    else pixel_at c x y.
Proof.
  intros Hx Hy. unfold putImageData.
  rewrite pixel_at_tabulate by assumption. reflexivity.
Qed.

(** The canvas after the write of the patch: inside the patch's
    rectangle the patch's pixels, as the canvas stores them, and the
    former pixels elsewhere. *)
Lemma draw_patch_pixels (ctx ctx1 : Canvas) (f : Gifuct.Frame)
      (p : list Z) :
  draw_patch ua ctx f = Ok ctx1 ->
  Gifuct.patch f = Some p ->
  cwidth ctx1 = cwidth ctx /\ cheight ctx1 = cheight ctx
  /\ forall x y, x < cwidth ctx -> y < cheight ctx ->
       pixel_at ctx1 x y
       = if in_rect (Gifuct.left (Gifuct.dims f)) (Gifuct.top (Gifuct.dims f))
                    (Gifuct.width (Gifuct.dims f))
                    (Gifuct.height (Gifuct.dims f)) x y
         then stored ua
                (image_pixel
                   (mkImageData (map clamp8 p) (Gifuct.width (Gifuct.dims f))
                                (Gifuct.height (Gifuct.dims f)))
                   (x - Gifuct.left (Gifuct.dims f))
                   (y - Gifuct.top (Gifuct.dims f)))
         else pixel_at ctx x y.
Proof.
  unfold draw_patch. intros H Hp. rewrite Hp in H. cbv zeta in H.
  destruct (new_ImageData (map clamp8 p) (Gifuct.width (Gifuct.dims f))
                          (Gifuct.height (Gifuct.dims f)))
    as [imageData | e] eqn:E; [ | discriminate ].
  assert (Himg : imageData
                 = mkImageData (map clamp8 p) (Gifuct.width (Gifuct.dims f))
                               (Gifuct.height (Gifuct.dims f))).
  { unfold new_ImageData in E. cbv zeta in E.
    repeat match type of E with
           | (if ?c then _ else _) = _ => destruct c; [discriminate | ]
           end.
    injection E as <-. reflexivity. }
  subst imageData. cbn [bind] in H. injection H as <-. repeat split.
  intros x y Hx Hy. apply putImageData_pixels; assumption.
Qed.

(** A frame without a patch leaves the canvas as it is. *)
Lemma draw_patch_none (ctx ctx1 : Canvas) (f : Gifuct.Frame) :
  draw_patch ua ctx f = Ok ctx1 -> Gifuct.patch f = None -> ctx1 = ctx.
Proof.
  unfold draw_patch. intros H Hp. rewrite Hp in H. congruence.
Qed.

(** The disposal, pixel by pixel, on and off the canvas. *)
Lemma dispose_clears (c : Canvas) (f : Gifuct.Frame) (x y : nat) :
  Gifuct.disposalType f = 2%Z \/ Gifuct.disposalType f = 3%Z ->
  pixel_at (dispose c f) x y
  = if in_rect (Gifuct.left (Gifuct.dims f)) (Gifuct.top (Gifuct.dims f))
               (Gifuct.width (Gifuct.dims f)) (Gifuct.height (Gifuct.dims f))
               x y
    then transparent_black
    else pixel_at c x y.
Proof.
  intros Hd.
  assert (E : dispose c f
              = clearRect c (Gifuct.left (Gifuct.dims f))
                          (Gifuct.top (Gifuct.dims f))
                          (Gifuct.width (Gifuct.dims f))
                          (Gifuct.height (Gifuct.dims f))).
  { unfold dispose. cbv zeta. destruct Hd as [-> | ->]; reflexivity. }
  rewrite E.
  destruct ((x <? cwidth c) && (y <? cheight c)) eqn:Hin.
  - apply andb_true_iff in Hin. destruct Hin as [Hx Hy].
    apply Nat.ltb_lt in Hx, Hy. apply clearRect_pixels; assumption.
  - unfold pixel_at. cbn [cwidth cheight clearRect]. rewrite Hin.
    destruct (in_rect _ _ _ _ x y); reflexivity.
Qed.

Lemma frame_step_inv (ctx : Canvas) (f : Gifuct.Frame) (full : ImageData)
      (ascii : FrameAscii) (ctx' : Canvas) :
  frame_step scale_filter ua logicalWidth logicalHeight width alphaThreshold
             ctx f = Ok (full, ascii, ctx') ->
  exists ctx1,
    draw_patch ua ctx f = Ok ctx1
    /\ getImageData ua ctx1 logicalWidth logicalHeight = Ok full
    /\ imageDataToAscii scale_filter ua full width alphaThreshold = Ok ascii
    /\ ctx' = dispose ctx1 f.
Proof.
  unfold frame_step.
  destruct (draw_patch ua ctx f) as [ctx1 | e] eqn:E1; [ | discriminate ].
  cbn [bind].
  destruct (getImageData ua ctx1 logicalWidth logicalHeight) as [full' | e]
    eqn:E2; [ | discriminate ].
  cbn [bind].
  destruct (imageDataToAscii scale_filter ua full' width alphaThreshold)
    as [ascii' | e] eqn:E3; [ | discriminate ].
  cbn [bind]. intros H.
  assert (Hf : full' = full) by congruence.
  assert (Ha : ascii' = ascii) by congruence.
  assert (Hc : dispose ctx1 f = ctx') by congruence.
  subst. exists ctx1. auto.
Qed.

Lemma frame_step_ok (ctx : Canvas) (f : Gifuct.Frame) (n : Z) :
  1 <= logicalWidth -> 1 <= logicalHeight ->
  can_allocate ua logicalWidth logicalHeight = true ->
  (1 <= width <= 2147483647)%Z ->
  JsNum.to_long (spec_grid_height logicalWidth logicalHeight width)
  = Some n ->
  can_allocate ua (Z.to_nat width) (Z.to_nat n) = true ->
  wf_frame f ->
  exists full ascii ctx',
    frame_step scale_filter ua logicalWidth logicalHeight width
               alphaThreshold ctx f = Ok (full, ascii, ctx').
Proof.
  intros Hlw Hlh Ha HW Hn Han Hf.
  destruct (draw_patch_ok ctx f Hf) as [ctx1 E1].
  unfold frame_step. rewrite E1. cbn [bind].
  unfold getImageData.
  test_false (logicalWidth =? 0).
  test_false (logicalHeight =? 0).
  rewrite Ha. cbn [orb negb bind].
  match goal with
  | |- context [imageDataToAscii _ _ ?full _ _] =>
      destruct (imageDataToAscii_ok scale_filter ua full width alphaThreshold
                  n Hlw Hlh HW Hn Han) as [_ E3]
  end.
  rewrite E3. cbn [bind]. eexists _, _, _. reflexivity.
Qed.

(** The loop appends one grid per frame and never looks ahead. *)
Lemma render_frames_app (fs1 fs2 : list Gifuct.Frame) (ctx : Canvas)
      (acc : list FrameAscii) :
  render_frames scale_filter ua logicalWidth logicalHeight width
                alphaThreshold ctx acc (fs1 ++ fs2)
  = bind (render_frames scale_filter ua logicalWidth logicalHeight width
                        alphaThreshold ctx acc fs1)
         (fun r =>
            render_frames scale_filter ua logicalWidth logicalHeight width
                          alphaThreshold (snd r) (fst r) fs2).
Proof.
  revert ctx acc. induction fs1 as [ | f fs1 IH]; intros ctx acc.
  - reflexivity.
  - cbn [app render_frames].
    destruct (frame_step scale_filter ua logicalWidth logicalHeight width
                         alphaThreshold ctx f)
      as [[[full ascii] ctx'] | e];
      [ | reflexivity ].
    cbn [bind]. apply IH.
Qed.

Lemma render_frames_ok (fs : list Gifuct.Frame) (n : Z) :
  1 <= logicalWidth -> 1 <= logicalHeight ->
  can_allocate ua logicalWidth logicalHeight = true ->
  (1 <= width <= 2147483647)%Z ->
  JsNum.to_long (spec_grid_height logicalWidth logicalHeight width)
  = Some n ->
  can_allocate ua (Z.to_nat width) (Z.to_nat n) = true ->
  Forall wf_frame fs ->
  forall ctx acc,
  exists out ctx',
    render_frames scale_filter ua logicalWidth logicalHeight width
                  alphaThreshold ctx acc fs = Ok (acc ++ out, ctx')
    /\ List.length out = List.length fs.
Proof.
  intros Hlw Hlh Ha HW Hn Han.
  induction 1 as [ | f fs Hf Hfs IH]; intros ctx acc.
  - exists [], ctx. rewrite app_nil_r. split; reflexivity.
  - cbn [render_frames].
    destruct (frame_step_ok ctx f n Hlw Hlh Ha HW Hn Han Hf)
      as (full & ascii & ctx1 & E).
    rewrite E. cbn [bind].
    destruct (IH ctx1 (acc ++ [ascii])) as (out & ctx' & E' & Hlen).
    exists (ascii :: out), ctx'. rewrite E', <- app_assoc.
    cbn [app List.length]. split; [reflexivity | lia].
Qed.

(** The loop, iteration by iteration: [cs] lists the canvas each frame
    finds and the canvas the last one leaves; grid [i] is the grid of the
    iteration that processes frame [i] on canvas [i]. *)
Lemma render_frames_trace (fs : list Gifuct.Frame) :
  forall (ctx : Canvas) (acc all : list FrameAscii) (ctx' : Canvas),
    render_frames scale_filter ua logicalWidth logicalHeight width
                  alphaThreshold ctx acc fs = Ok (all, ctx') ->
    exists (out : list FrameAscii) (cs : list Canvas),
      all = acc ++ out
      /\ List.length out = List.length fs
      /\ List.length cs = S (List.length fs)
      /\ nth_error cs 0 = Some ctx
      /\ nth_error cs (List.length fs) = Some ctx'
      /\ forall i f,
           nth_error fs i = Some f ->
           exists (c c' : Canvas) (full : ImageData) (ascii : FrameAscii),
             nth_error cs i = Some c /\ nth_error cs (S i) = Some c'
             /\ frame_step scale_filter ua logicalWidth logicalHeight width
                           alphaThreshold c f = Ok (full, ascii, c')
             /\ nth_error out i = Some ascii.
Proof.
  induction fs as [ | f fs IH]; intros ctx acc all ctx' H.
  - cbn [render_frames] in H.
    assert (all = acc) by congruence. assert (ctx' = ctx) by congruence.
    subst. exists [], [ctx]. rewrite app_nil_r.
    repeat (split; [reflexivity | ]).
    intros i f Hi. destruct i; discriminate Hi.
  - cbn [render_frames] in H.
    destruct (frame_step scale_filter ua logicalWidth logicalHeight width
                         alphaThreshold ctx f)
      as [[[full ascii] ctx1] | e] eqn:E; [ | discriminate ].
    cbn [bind] in H.
    destruct (IH _ _ _ _ H)
      as (out & cs & Hall & Hlen & Hcs & Hhd & Hlast & Hstep).
    exists (ascii :: out), (ctx :: cs).
    split; [rewrite Hall, <- app_assoc; reflexivity | ].
    split; [cbn [List.length]; lia | ].
    split; [cbn [List.length]; lia | ].
    split; [reflexivity | ].
    split; [exact Hlast | ].
    intros [ | i] g Hg.
    + cbn [nth_error] in Hg. assert (g = f) by congruence. subst g.
      exists ctx, ctx1, full, ascii.
      split; [reflexivity | ]. split; [exact Hhd | ].
      split; [exact E | reflexivity].
    + cbn [nth_error] in Hg.
      destruct (Hstep i g Hg) as (c & c' & full' & ascii' & H1 & H2 & H3 & H4).
      exists c, c', full', ascii'. auto.
Qed.

End FrameLoop.

(** C1: the frame's snapshot is the whole logical canvas as it is after
    the write of the patch and before the disposal: inside the patch's
    rectangle the canvas holds the patch's pixels as the user agent's
    canvas keeps them ([stored]: a pixel that is not opaque may read back
    changed), elsewhere the pixels it held, and a frame without a patch
    leaves it as it was; with disposal method 2 the canvas that goes on to
    the next frame is that canvas with exactly the patch's rectangle
    transparent and every other pixel as it was. *)
Theorem snapshot_before_disposal
        (scale_filter : ImageData -> nat -> nat -> nat -> nat -> rgba)
        (ua : UserAgent)
        (logicalWidth logicalHeight : nat) (width alphaThreshold : Z)
        (ctx : Canvas) (f : Gifuct.Frame)
        (full : ImageData) (ascii : FrameAscii) (ctx' : Canvas) :
  frame_step scale_filter ua logicalWidth logicalHeight width alphaThreshold
             ctx f = Ok (full, ascii, ctx') ->
  exists ctx1 : Canvas,
    draw_patch ua ctx f = Ok ctx1
    /\ (forall p, Gifuct.patch f = Some p ->
         forall x y, x < cwidth ctx -> y < cheight ctx ->
           pixel_at ctx1 x y
           = if in_rect (Gifuct.left (Gifuct.dims f))
                        (Gifuct.top (Gifuct.dims f))
                        (Gifuct.width (Gifuct.dims f))
                        (Gifuct.height (Gifuct.dims f)) x y
             then stored ua
                    (image_pixel
                       (mkImageData (map clamp8 p)
                                    (Gifuct.width (Gifuct.dims f))
                                    (Gifuct.height (Gifuct.dims f)))
                       (x - Gifuct.left (Gifuct.dims f))
                       (y - Gifuct.top (Gifuct.dims f)))
             else pixel_at ctx x y)
    /\ (Gifuct.patch f = None -> ctx1 = ctx)
    /\ getImageData ua ctx1 logicalWidth logicalHeight = Ok full
    /\ Dom.width full = logicalWidth /\ Dom.height full = logicalHeight
    /\ (forall x y, x < logicalWidth -> y < logicalHeight ->
                    image_pixel full x y = pixel_at ctx1 x y)
    /\ imageDataToAscii scale_filter ua full width alphaThreshold = Ok ascii
    /\ (Gifuct.disposalType f = 2%Z ->
        cwidth ctx' = cwidth ctx1 /\ cheight ctx' = cheight ctx1
        /\ forall x y, x < cwidth ctx1 -> y < cheight ctx1 ->
             pixel_at ctx' x y
             = if in_rect (Gifuct.left (Gifuct.dims f))
                          (Gifuct.top (Gifuct.dims f))
                          (Gifuct.width (Gifuct.dims f))
                          (Gifuct.height (Gifuct.dims f)) x y
               then transparent_black
               else pixel_at ctx1 x y).
Proof.
  intros H.
  destruct (frame_step_inv _ _ _ _ _ _ _ _ _ _ _ H)
    as (ctx1 & E1 & E2 & E3 & ->).
  destruct (getImageData_pixels _ _ _ _ _ E2) as (Hw & Hh & Hpx).
  exists ctx1. split; [exact E1 | ]. split.
  { intros p Hp. exact (proj2 (proj2 (draw_patch_pixels _ _ _ _ _ E1 Hp))). }
  split; [exact (draw_patch_none _ _ _ _ E1) | ].
  repeat (split; [assumption | ]).
  intros Hd. unfold dispose. rewrite Hd. cbn [Z.eqb Pos.eqb].
  repeat split. intros x y Hx Hy. apply clearRect_pixels; assumption.
Qed.

Lemma snapshot_before_disposal_witness :
  frame_step nearest_neighbour example_agent 4 4 4 16
             (step_canvas scenario_step1) frame_white
  = Ok (step_full scenario_step2, step_ascii scenario_step2,
        step_canvas scenario_step2)
  /\ exists ctx1 : Canvas,
       draw_patch example_agent (step_canvas scenario_step1) frame_white
       = Ok ctx1
       /\ (forall p, Gifuct.patch frame_white = Some p ->
            forall x y, x < cwidth (step_canvas scenario_step1) ->
                        y < cheight (step_canvas scenario_step1) ->
              pixel_at ctx1 x y
              = if in_rect (Gifuct.left (Gifuct.dims frame_white))
                           (Gifuct.top (Gifuct.dims frame_white))
                           (Gifuct.width (Gifuct.dims frame_white))
                           (Gifuct.height (Gifuct.dims frame_white)) x y
                then stored example_agent
                       (image_pixel
                          (mkImageData (map clamp8 p)
                             (Gifuct.width (Gifuct.dims frame_white))
                             (Gifuct.height (Gifuct.dims frame_white)))
                          (x - Gifuct.left (Gifuct.dims frame_white))
                          (y - Gifuct.top (Gifuct.dims frame_white)))
                else pixel_at (step_canvas scenario_step1) x y)
       /\ (Gifuct.patch frame_white = None
           -> ctx1 = step_canvas scenario_step1)
       /\ getImageData example_agent ctx1 4 4 = Ok (step_full scenario_step2)
       /\ Dom.width (step_full scenario_step2) = 4
       /\ Dom.height (step_full scenario_step2) = 4
       /\ (forall x y, x < 4 -> y < 4 ->
             image_pixel (step_full scenario_step2) x y = pixel_at ctx1 x y)
       /\ imageDataToAscii nearest_neighbour example_agent
                           (step_full scenario_step2) 4 16
          = Ok (step_ascii scenario_step2)
       /\ (Gifuct.disposalType frame_white = 2%Z ->
           cwidth (step_canvas scenario_step2) = cwidth ctx1
           /\ cheight (step_canvas scenario_step2) = cheight ctx1
           /\ forall x y, x < cwidth ctx1 -> y < cheight ctx1 ->
                pixel_at (step_canvas scenario_step2) x y
                = if in_rect (Gifuct.left (Gifuct.dims frame_white))
                             (Gifuct.top (Gifuct.dims frame_white))
                             (Gifuct.width (Gifuct.dims frame_white))
                             (Gifuct.height (Gifuct.dims frame_white)) x y
                  then transparent_black
                  else pixel_at ctx1 x y).
Proof.
  assert (E : frame_step nearest_neighbour example_agent 4 4 4 16
                         (step_canvas scenario_step1) frame_white
              = Ok (step_full scenario_step2, step_ascii scenario_step2,
                    step_canvas scenario_step2))
    by (vm_compute; reflexivity).
  split; [exact E | ].
  exact (snapshot_before_disposal nearest_neighbour example_agent 4 4 4 16
           _ frame_white _ _ _ E).
Defined.

(** What a canvas does to a pixel that is not opaque: a white pixel of
    alpha 0, as gifuct-js delivers for a transparent colour index, is in
    the snapshot as transparent black. *)
Example transparent_patch_pixel :
  option_map data
    (match frame_step nearest_neighbour example_agent 2 1 2 16
                      (createCanvas 2 1)
                      (Gifuct.mkFrame (Some [255; 255; 255; 0; 0; 0; 0; 255]%Z)
                                      (Gifuct.mkDims 0 0 2 1) 1 100) with
     | Ok (full, _, _) => Some full
     | Err _ => None
     end)
  = Some [0; 0; 0; 0; 0; 0; 0; 255]%Z.
Proof. vm_compute. reflexivity. Qed.

(** C6: disposal method 3 is carried out as method 2.  After either, every
    pixel of the patch's rectangle is transparent black and every other
    pixel is as it was, the canvas keeps its size, and so the canvas, the
    result of the iteration and the results of all later iterations are
    the same for both.  (Method 1 leaves the canvas alone.) *)
Theorem restore_to_previous_clears
        (scale_filter : ImageData -> nat -> nat -> nat -> nat -> rgba)
        (ua : UserAgent)
        (logicalWidth logicalHeight : nat) (width alphaThreshold : Z)
        (ctx : Canvas) (f : Gifuct.Frame) :
  (forall (d : Z) (x y : nat),
     d = 2%Z \/ d = 3%Z ->
     pixel_at (dispose ctx (with_disposal d f)) x y
     = if in_rect (Gifuct.left (Gifuct.dims f)) (Gifuct.top (Gifuct.dims f))
                  (Gifuct.width (Gifuct.dims f))
                  (Gifuct.height (Gifuct.dims f)) x y
       then transparent_black
       else pixel_at ctx x y)
  /\ cwidth (dispose ctx (with_disposal 3 f)) = cwidth ctx
  /\ cheight (dispose ctx (with_disposal 3 f)) = cheight ctx
  /\ dispose ctx (with_disposal 1 f) = ctx
  /\ dispose ctx (with_disposal 3 f) = dispose ctx (with_disposal 2 f)
  /\ frame_step scale_filter ua logicalWidth logicalHeight width
                alphaThreshold ctx (with_disposal 3 f)
     = frame_step scale_filter ua logicalWidth logicalHeight width
                  alphaThreshold ctx (with_disposal 2 f)
  /\ forall (asciiFrames : list FrameAscii) (rest : list Gifuct.Frame),
       render_frames scale_filter ua logicalWidth logicalHeight width
                     alphaThreshold ctx asciiFrames (with_disposal 3 f :: rest)
       = render_frames scale_filter ua logicalWidth logicalHeight width
                       alphaThreshold ctx asciiFrames
                       (with_disposal 2 f :: rest).
Proof.
  assert (Hd : forall c, dispose c (with_disposal 3 f)
                         = dispose c (with_disposal 2 f))
    by (intros c; reflexivity).
  assert (Hs : frame_step scale_filter ua logicalWidth logicalHeight width
                          alphaThreshold ctx (with_disposal 3 f)
               = frame_step scale_filter ua logicalWidth logicalHeight width
                            alphaThreshold ctx (with_disposal 2 f)).
  { unfold frame_step.
    change (draw_patch ua ctx (with_disposal 3 f))
      with (draw_patch ua ctx (with_disposal 2 f)).
    destruct (draw_patch ua ctx (with_disposal 2 f)) as [ctx1 | e];
      [ | reflexivity ].
    cbn [bind]. rewrite Hd. reflexivity. }
  split.
  { intros d x y Hdd.
    exact (dispose_clears ctx (with_disposal d f) x y Hdd). }
  split; [reflexivity | ]. split; [reflexivity | ].
  split; [reflexivity | ].
  split; [apply Hd | ]. split; [exact Hs | ].
  intros asciiFrames rest. cbn [render_frames]. rewrite Hs. reflexivity.
Qed.

(** ** The assembler *)

Lemma firstn_length_app {A : Type} (l1 l2 : list A) (n : nat) :
  List.length l1 = n -> firstn n (l1 ++ l2) = l1.
Proof.
  intros <-. rewrite firstn_app, Nat.sub_diag, firstn_all.
  cbn [firstn]. apply app_nil_r.
Qed.

Lemma decodeGifFromBytes_frames
      (scale_filter : ImageData -> nat -> nat -> nat -> nat -> rgba)
      (ua : UserAgent)
      (gif : Gifuct.ParsedGif) (s : App.State)
      (out : list FrameAscii) (ctx' : Canvas) :
  render_frames scale_filter ua (Gifuct.lsd_width gif) (Gifuct.lsd_height gif)
    (App.width s) (App.alphaThreshold s)
    (clearRect (createCanvas (Gifuct.lsd_width gif) (Gifuct.lsd_height gif))
               0 0 (Gifuct.lsd_width gif) (Gifuct.lsd_height gif))
    [] (Gifuct.decompressed gif) = Ok (out, ctx') ->
  decodeGifFromBytes scale_filter ua gif s
  = Ok (setIndex (Some 0%Z) (setFrames (Some out) s)).
Proof.
  intros H. unfold decodeGifFromBytes. cbv zeta. rewrite H. reflexivity.
Qed.

(** C2: on well-formed input the assembler returns one grid per patch
    frame, in the order of the frames: there is a run of canvases, from
    the cleared logical canvas on, in which grid [i] is the grid of the
    iteration that processes frame [i] on the canvas the frames before it
    left, and that leaves the next canvas.  The grids of the first frames
    are those the same frames give when other frames, or none, follow
    them; no frames give no grids. *)
Theorem assembler_in_order
        (scale_filter : ImageData -> nat -> nat -> nat -> nat -> rgba)
        (ua : UserAgent)
        (gif : Gifuct.ParsedGif) (s : App.State) (H : Z) :
  1 <= Gifuct.lsd_width gif -> 1 <= Gifuct.lsd_height gif ->
  can_allocate ua (Gifuct.lsd_width gif) (Gifuct.lsd_height gif) = true ->
  (1 <= App.width s <= 2147483647)%Z ->
  JsNum.to_long (spec_grid_height (Gifuct.lsd_width gif)
                                  (Gifuct.lsd_height gif) (App.width s))
  = Some H ->
  can_allocate ua (Z.to_nat (App.width s)) (Z.to_nat H) = true ->
  Forall wf_frame (Gifuct.decompressed gif) ->
  exists (out : list FrameAscii) (s' : App.State),
    decodeGifFromBytes scale_filter ua gif s = Ok s'
    /\ App.frames s' = Some out
    /\ List.length out = List.length (Gifuct.decompressed gif)
    /\ (exists cs : list Canvas,
          List.length cs = S (List.length (Gifuct.decompressed gif))
          /\ nth_error cs 0
             = Some (clearRect (createCanvas (Gifuct.lsd_width gif)
                                             (Gifuct.lsd_height gif))
                               0 0 (Gifuct.lsd_width gif)
                               (Gifuct.lsd_height gif))
          /\ forall i f,
               nth_error (Gifuct.decompressed gif) i = Some f ->
               exists (c c' : Canvas) (full : ImageData) (ascii : FrameAscii),
                 nth_error cs i = Some c /\ nth_error cs (S i) = Some c'
                 /\ frame_step scale_filter ua (Gifuct.lsd_width gif)
                               (Gifuct.lsd_height gif) (App.width s)
                               (App.alphaThreshold s) c f
                    = Ok (full, ascii, c')
                 /\ nth_error out i = Some ascii)
    /\ (Gifuct.decompressed gif = [] -> out = [])
    /\ forall fs1 fs2 fs2' : list Gifuct.Frame,
         Gifuct.decompressed gif = fs1 ++ fs2 ->
         Forall wf_frame fs2' ->
         exists (out' : list FrameAscii) (s'' : App.State),
           decodeGifFromBytes scale_filter ua (with_frames (fs1 ++ fs2') gif) s
           = Ok s''
           /\ App.frames s'' = Some out'
           /\ List.length out' = List.length fs1 + List.length fs2'
           /\ firstn (List.length fs1) out' = firstn (List.length fs1) out.
Proof.
  intros Hlw Hlh Ha HW HH Han Hwf.
  set (ctx0 := clearRect (createCanvas (Gifuct.lsd_width gif)
                                       (Gifuct.lsd_height gif))
                         0 0 (Gifuct.lsd_width gif) (Gifuct.lsd_height gif)).
  destruct (render_frames_ok scale_filter ua _ _ _ (App.alphaThreshold s) _ H
              Hlw Hlh Ha HW HH Han Hwf ctx0 []) as (out & ctx' & E & Hlen).
  cbn [app] in E.
  exists out, (setIndex (Some 0%Z) (setFrames (Some out) s)).
  split; [exact (decodeGifFromBytes_frames _ _ _ _ _ _ E) | ].
  split; [reflexivity | ]. split; [exact Hlen | ].
  split.
  { destruct (render_frames_trace scale_filter ua _ _ _ _ _ _ _ _ _ E)
      as (out0 & cs & Hall & _ & Hcs & Hhd & _ & Hstep).
    cbn [app] in Hall. subst out0.
    exists cs. split; [exact Hcs | ]. split; [exact Hhd | exact Hstep]. }
  split.
  { intros Hnil. rewrite Hnil in Hlen. destruct out; [reflexivity | ].
    discriminate Hlen. }
  intros fs1 fs2 fs2' Hsplit Hwf2'.
  rewrite Hsplit in Hwf, E. apply Forall_app in Hwf.
  destruct Hwf as [Hwf1 Hwf2].
  destruct (render_frames_ok scale_filter ua _ _ _ (App.alphaThreshold s) _ H
              Hlw Hlh Ha HW HH Han Hwf1 ctx0 [])
    as (out1 & ctx1 & E1 & Hlen1).
  cbn [app] in E1.
  rewrite render_frames_app, E1 in E. cbn [bind fst snd] in E.
  destruct (render_frames_ok scale_filter ua _ _ _ (App.alphaThreshold s) _ H
              Hlw Hlh Ha HW HH Han Hwf2 ctx1 out1) as (out2 & ctx2 & E2 & _).
  rewrite E2 in E. assert (Hout : out = out1 ++ out2) by congruence.
  subst out.
  destruct (render_frames_ok scale_filter ua _ _ _ (App.alphaThreshold s) _ H
              Hlw Hlh Ha HW HH Han Hwf2' ctx1 out1)
    as (out2' & ctx2' & E2' & Hlen2').
  exists (out1 ++ out2'),
         (setIndex (Some 0%Z) (setFrames (Some (out1 ++ out2')) s)).
  split.
  { apply (decodeGifFromBytes_frames _ _ _ _ _ ctx2').
    cbn [with_frames Gifuct.lsd_width Gifuct.lsd_height Gifuct.decompressed].
    fold ctx0. rewrite render_frames_app, E1. cbn [bind fst snd].
    exact E2'. }
  split; [reflexivity | ]. split; [rewrite length_app; lia | ].
  rewrite !firstn_length_app by exact Hlen1. reflexivity.
Qed.

Lemma assembler_in_order_witness :
  1 <= Gifuct.lsd_width scenario_gif /\ 1 <= Gifuct.lsd_height scenario_gif
  /\ can_allocate example_agent (Gifuct.lsd_width scenario_gif)
                  (Gifuct.lsd_height scenario_gif) = true
  /\ (1 <= App.width initial_state <= 2147483647)%Z
  /\ JsNum.to_long (spec_grid_height (Gifuct.lsd_width scenario_gif)
                                     (Gifuct.lsd_height scenario_gif)
                                     (App.width initial_state)) = Some 40%Z
  /\ can_allocate example_agent (Z.to_nat (App.width initial_state))
                  (Z.to_nat 40) = true
  /\ Forall wf_frame (Gifuct.decompressed scenario_gif)
  /\ exists (out : list FrameAscii) (s' : App.State),
       decodeGifFromBytes nearest_neighbour example_agent scenario_gif
                          initial_state = Ok s'
       /\ App.frames s' = Some out
       /\ List.length out = List.length (Gifuct.decompressed scenario_gif)
       /\ (exists cs : list Canvas,
             List.length cs = S (List.length (Gifuct.decompressed scenario_gif))
             /\ nth_error cs 0
                = Some (clearRect
                          (createCanvas (Gifuct.lsd_width scenario_gif)
                                        (Gifuct.lsd_height scenario_gif))
                          0 0 (Gifuct.lsd_width scenario_gif)
                          (Gifuct.lsd_height scenario_gif))
             /\ forall i f,
                  nth_error (Gifuct.decompressed scenario_gif) i = Some f ->
                  exists (c c' : Canvas) (full : ImageData)
                         (ascii : FrameAscii),
                    nth_error cs i = Some c /\ nth_error cs (S i) = Some c'
                    /\ frame_step nearest_neighbour example_agent
                                  (Gifuct.lsd_width scenario_gif)
                                  (Gifuct.lsd_height scenario_gif)
                                  (App.width initial_state)
                                  (App.alphaThreshold initial_state) c f
                       = Ok (full, ascii, c')
                    /\ nth_error out i = Some ascii)
       /\ (Gifuct.decompressed scenario_gif = [] -> out = [])
       /\ forall fs1 fs2 fs2' : list Gifuct.Frame,
            Gifuct.decompressed scenario_gif = fs1 ++ fs2 ->
            Forall wf_frame fs2' ->
            exists (out' : list FrameAscii) (s'' : App.State),
              decodeGifFromBytes nearest_neighbour example_agent
                (with_frames (fs1 ++ fs2') scenario_gif) initial_state
              = Ok s''
              /\ App.frames s'' = Some out'
              /\ List.length out' = List.length fs1 + List.length fs2'
              /\ firstn (List.length fs1) out' = firstn (List.length fs1) out.
Proof.
  assert (Hlw : 1 <= Gifuct.lsd_width scenario_gif) by (cbn; lia).
  assert (Hlh : 1 <= Gifuct.lsd_height scenario_gif) by (cbn; lia).
  assert (Ha : can_allocate example_agent (Gifuct.lsd_width scenario_gif)
                            (Gifuct.lsd_height scenario_gif) = true)
    by reflexivity.
  assert (HW : (1 <= App.width initial_state <= 2147483647)%Z)
    by (cbn; unfold DEFAULT_WIDTH; lia).
  assert (HH : JsNum.to_long
                 (spec_grid_height (Gifuct.lsd_width scenario_gif)
                                   (Gifuct.lsd_height scenario_gif)
                                   (App.width initial_state)) = Some 40%Z)
    by (vm_compute; reflexivity).
  assert (Han : can_allocate example_agent
                             (Z.to_nat (App.width initial_state))
                             (Z.to_nat 40) = true)
    by reflexivity.
  assert (Hwf : Forall wf_frame (Gifuct.decompressed scenario_gif)).
  { repeat constructor; cbn; lia. }
  repeat (split; [assumption | ]).
  exact (assembler_in_order nearest_neighbour example_agent scenario_gif
           initial_state 40 Hlw Hlh Ha HW HH Han Hwf).
Defined.

Example scenario_grids :
  option_map App.frames
    (match decodeGifFromBytes nearest_neighbour example_agent scenario_gif
             (App.mkState EmptyString None 4 12 false (Some 0%Z) 16) with
     | Ok s' => Some s'
     | Err _ => None
     end)
  = Some (Some [ ["@@@@"; "@@@@"]; ["@@@@"; "@  @"] ]%string).
Proof. vm_compute. reflexivity. Qed.

(** ** Playback state *)

(** C7, amended: installing a newly assembled sequence resets the frame
    index to 0 and leaves the running flag as it was. *)
Theorem new_sequence_resets_index
        (scale_filter : ImageData -> nat -> nat -> nat -> nat -> rgba)
        (ua : UserAgent)
        (gif : Gifuct.ParsedGif) (s s' : App.State) :
  decodeGifFromBytes scale_filter ua gif s = Ok s' ->
  App.index s' = Some 0%Z
  /\ App.playing s' = App.playing s
  /\ exists asciiFrames, App.frames s' = Some asciiFrames.
Proof.
  unfold decodeGifFromBytes. cbv zeta.
  destruct (render_frames _ _ _ _ _ _ _ _ _) as [[out ctx'] | e];
    [ | discriminate ].
  cbn [bind fst]. intros H. injection H as <-.
  split; [reflexivity | ]. split; [reflexivity | ].
  exists out. reflexivity.
Qed.

Lemma new_sequence_resets_index_witness :
  decodeGifFromBytes nearest_neighbour example_agent scenario_gif busy_state
  = Ok busy_state_after
  /\ App.index busy_state_after = Some 0%Z
  /\ App.playing busy_state_after = App.playing busy_state
  /\ exists asciiFrames, App.frames busy_state_after = Some asciiFrames.
Proof.
  assert (E : decodeGifFromBytes nearest_neighbour example_agent
                                 scenario_gif busy_state
              = Ok busy_state_after) by (vm_compute; reflexivity).
  split; [exact E | ].
  exact (new_sequence_resets_index nearest_neighbour example_agent
           scenario_gif busy_state busy_state_after E).
Defined.

(** C7 as the specification words it does not hold: playback is not
    stopped when a sequence is installed while the animation plays. *)
Lemma new_sequence_keeps_playing :
  decodeGifFromBytes nearest_neighbour example_agent scenario_gif busy_state
  = Ok busy_state_after
  /\ App.index busy_state = Some 1%Z
  /\ App.playing busy_state = true
  /\ App.playing busy_state_after = true
  /\ ~ (App.index busy_state_after = Some 0%Z
        /\ App.playing busy_state_after = false).
Proof.
  split; [vm_compute; reflexivity | ].
  repeat (split; [reflexivity | ]).
  intros [_ H]. discriminate H.
Qed.

Lemma js_rem_next (i N : Z) :
  (0 <= i < N)%Z -> js_rem (js_add (Some i) 1) N = Some ((i + 1) mod N)%Z.
Proof.
  intros Hi. cbn [js_add js_rem].
  test_false (N =? 0)%Z.
  rewrite Z.rem_mod_nonneg by lia. reflexivity.
Qed.

Lemma js_rem_prev (i N : Z) :
  (0 <= i < N)%Z ->
  js_rem (js_add (js_add (Some i) (-1)) N) N = Some ((i - 1 + N) mod N)%Z.
Proof.
  intros Hi. cbn [js_add js_rem].
  test_false (N =? 0)%Z.
  rewrite Z.rem_mod_nonneg by lia.
  replace (i + -1 + N)%Z with (i - 1 + N)%Z by lia. reflexivity.
Qed.

(** C9: with [N > 0] frames and an index [i] in [[0, N)], the timer moves
    the index to [(i + 1) mod N], [Next] to [(i + 1) mod N] and [Prev] to
    [(i - 1 + N) mod N], which is [N - 1] from 0; the buttons do so whether
    or not the animation plays, and the index stays in [[0, N)]. *)
Theorem index_stays_in_range (s : App.State) (fs : list FrameAscii) (i : Z) :
  App.frames s = Some fs ->
  (0 < Z.of_nat (List.length fs))%Z ->
  App.index s = Some i ->
  (0 <= i < Z.of_nat (List.length fs))%Z ->
  let N := Z.of_nat (List.length fs) in
  (App.playing s = true ->
   App.index (timer_tick s) = Some ((i + 1) mod N)%Z)
  /\ (App.playing s = false -> App.index (timer_tick s) = Some i)
  /\ App.index (click_next s) = Some ((i + 1) mod N)%Z
  /\ App.index (click_prev s) = Some ((i - 1 + N) mod N)%Z
  /\ (i = 0%Z -> App.index (click_prev s) = Some (N - 1)%Z)
  /\ forall e : index_event,
       App.frames (handle e s) = Some fs
       /\ App.playing (handle e s) = App.playing s
       /\ exists j, App.index (handle e s) = Some j /\ (0 <= j < N)%Z.
Proof.
  intros Hfs HN Hi Hrange N.
  pose proof (js_rem_next i N Hrange) as Hnext.
  pose proof (js_rem_prev i N Hrange) as Hprev.
  assert (Hb1 : (0 <= (i + 1) mod N < N)%Z)
    by (apply Z.mod_pos_bound; exact HN).
  assert (Hb2 : (0 <= (i - 1 + N) mod N < N)%Z)
    by (apply Z.mod_pos_bound; exact HN).
  unfold timer_tick, click_next, click_prev.
  rewrite Hfs, Hi. fold N. cbv zeta. cbn [App.index setIndex].
  rewrite Hnext, Hprev.
  split; [intros ->; reflexivity | ].
  split; [intros ->; exact Hi | ].
  split; [reflexivity | ]. split; [reflexivity | ].
  split.
  { intros ->. f_equal. replace (0 - 1 + N)%Z with (N - 1)%Z by lia.
    apply Z.mod_small. lia. }
  intros [ | | ]; cbn [handle]; unfold timer_tick, click_next, click_prev;
    rewrite Hfs, Hi; fold N; cbv zeta; rewrite ?Hnext, ?Hprev.
  - destruct (App.playing s) eqn:Hpl;
      cbn [App.frames App.playing App.index setIndex];
      rewrite ?Hpl, ?Hi; repeat split; try assumption; eauto.
  - cbn [App.frames App.playing App.index setIndex].
    repeat split; try assumption; eauto.
  - cbn [App.frames App.playing App.index setIndex].
    repeat split; try assumption; eauto.
Qed.

Lemma index_stays_in_range_witness :
  App.frames paused_state = Some [["@"]; ["%"]; ["#"]]%string
  /\ (0 < Z.of_nat (List.length [["@"]; ["%"]; ["#"]]%string))%Z
  /\ App.index paused_state = Some 0%Z
  /\ (0 <= 0 < Z.of_nat (List.length [["@"]; ["%"]; ["#"]]%string))%Z
  /\ App.index (click_prev paused_state) = Some 2%Z
  /\ App.index (click_next paused_state) = Some 1%Z.
Proof.
  assert (H1 : App.frames paused_state = Some [["@"]; ["%"]; ["#"]]%string)
    by reflexivity.
  assert (H2 : (0 < Z.of_nat (List.length [["@"]; ["%"]; ["#"]]%string))%Z)
    by (cbn; lia).
  assert (H3 : App.index paused_state = Some 0%Z) by reflexivity.
  assert (H4 : (0 <= 0
                < Z.of_nat (List.length [["@"]; ["%"]; ["#"]]%string))%Z)
    by (cbn; lia).
  repeat (split; [assumption | ]).
  destruct (index_stays_in_range paused_state _ 0 H1 H2 H3 H4)
    as (_ & _ & Hnext & _ & Hprev & _).
  split; [exact (Hprev eq_refl) | exact Hnext].
Defined.

(** * Further properties of the source *)

(** ** Luminance thresholds *)

(** Two rows of the table whose bands both hold a luminance are the same
    row. *)
Lemma index_table_disjoint (k1 lo1 hi1 k2 lo2 hi2 L : float) :
  In (k1, (lo1, hi1)) index_table ->
  In (k2, (lo2, hi2)) index_table ->
  (lo1 <=? L)%float = true -> (hi1 <=? L)%float = false ->
  (lo2 <=? L)%float = true -> (hi2 <=? L)%float = false ->
  k1 = k2.
Proof.
  unfold index_table. intros H1 H2 Hlo1 Hhi1 Hlo2 Hhi2.
  repeat (destruct H1 as [H1 | H1];
          [injection H1 as <- <- <- | ]); [ .. | contradiction ];
    repeat (destruct H2 as [H2 | H2];
            [injection H2 as <- <- <- | ]); try contradiction;
    first
      [ reflexivity
      | exfalso;
        match type of Hhi1 with
        | (?h <=? _)%float = false =>
            match type of Hlo2 with
            | (?l <=? _)%float = true =>
                assert (Hx : (h <=? L)%float = true)
                  by (apply num_leb_trans with l;
                      [vm_compute; reflexivity | exact Hlo2])
            end
        end;
        congruence
      | exfalso;
        match type of Hhi2 with
        | (?h <=? _)%float = false =>
            match type of Hlo1 with
            | (?l <=? _)%float = true =>
                assert (Hx : (h <=? L)%float = true)
                  by (apply num_leb_trans with l;
                      [vm_compute; reflexivity | exact Hlo1])
            end
        end;
        congruence ].
Qed.

(** A key of the table has one row. *)
Lemma index_table_keys (k lo hi lo' hi' : float) :
  In (k, (lo, hi)) index_table ->
  In (k, (lo', hi')) index_table ->
  lo = lo' /\ hi = hi'.
Proof.
  unfold index_table. intros H H'.
  repeat (destruct H as [H | H];
          [injection H as <- <- <- | ]); [ .. | contradiction ];
    repeat (destruct H' as [H' | H']; [ | ]); try contradiction;
    pose proof (f_equal fst H') as Hk;
    pose proof (f_equal (fun p => fst (snd p)) H') as Hlo;
    pose proof (f_equal (fun p => snd (snd p)) H') as Hhi;
    cbn [fst snd] in Hk, Hlo, Hhi;
    first
      [ split; [exact Hlo | exact Hhi]
      | exfalso;
        apply FloatAxioms.Leibniz.eqb_spec in Hk;
        vm_compute in Hk; discriminate Hk ].
Qed.

(** X1: for channels in 0..255 the palette index is [k] exactly when the
    luminance the code computes lies in the band of [k]: at or above its
    lower bound and below the lower bound of [k + 1], the bounds being the
    binary64 numbers 14.1667, 42.5, 70.8333, 99.1667, 127.5, 155.8333,
    184.1667, 212.5 and 240.8333. *)
Theorem palette_index_thresholds (r g b : Z) (k lo hi : float) :
  is_byte r -> is_byte g -> is_byte b ->
  In (k, (lo, hi)) index_table ->
  let L := rgbToLum (JsNum.of_Z r) (JsNum.of_Z g) (JsNum.of_Z b) in
  palette_index (JsNum.of_Z r) (JsNum.of_Z g) (JsNum.of_Z b) = k
  <-> (lo <=? L)%float = true /\ (hi <=? L)%float = false.
Proof.
  intros Hr Hg Hb Hin L.
  destruct (palette_index_band r g b Hr Hg Hb)
    as (lo' & hi' & Hin' & Hlo' & Hhi').
  fold L in Hlo', Hhi'. split.
  - intros Hk. rewrite Hk in Hin'.
    destruct (index_table_keys _ _ _ _ _ Hin Hin') as [<- <-].
    split; assumption.
  - intros [Hlo Hhi]. symmetry.
    exact (index_table_disjoint _ _ _ _ _ _ L Hin Hin' Hlo Hhi Hlo' Hhi').
Qed.

Lemma palette_index_thresholds_witness :
  is_byte 10 /\ is_byte 51 /\ is_byte 54
  /\ In (1, (14.1667, 42.5))%float index_table
  /\ (palette_index (JsNum.of_Z 10) (JsNum.of_Z 51) (JsNum.of_Z 54)
      = 1%float
      <-> (14.1667 <=? rgbToLum (JsNum.of_Z 10) (JsNum.of_Z 51)
                                (JsNum.of_Z 54))%float = true
          /\ (42.5 <=? rgbToLum (JsNum.of_Z 10) (JsNum.of_Z 51)
                                (JsNum.of_Z 54))%float = false).
Proof.
  assert (H10 : is_byte 10) by (unfold is_byte; lia).
  assert (H51 : is_byte 51) by (unfold is_byte; lia).
  assert (H54 : is_byte 54) by (unfold is_byte; lia).
  assert (Hin : In (1, (14.1667, 42.5))%float index_table)
    by (right; left; reflexivity).
  repeat (split; [assumption | ]).
  exact (palette_index_thresholds 10 51 54 _ _ _ H10 H51 H54 Hin).
Defined.

(** ** The characters of a grid *)

Lemma list_ascii_of_string_append (s t : string) :
  list_ascii_of_string (s ++ t)
  = list_ascii_of_string s ++ list_ascii_of_string t.
Proof. induction s as [ | c s IH]; cbn; [ | rewrite IH ]; reflexivity. Qed.

Lemma string_get_in (s : string) (n : nat) (c : ascii) :
  String.get n s = Some c -> In c (list_ascii_of_string s).
Proof.
  revert n. induction s as [ | d s IH]; intros [ | n] H; cbn in *;
    try discriminate.
  - injection H as ->. left. reflexivity.
  - right. exact (IH n H).
Qed.

(** The glyph of a pixel with byte channels is one palette character. *)
Lemma pixel_glyph_in_palette (r g b a alphaThreshold : Z) :
  is_byte r -> is_byte g -> is_byte b ->
  exists c, In c (list_ascii_of_string ASCII_CHARS)
            /\ fst (pixel_glyph (Some r) (Some g) (Some b) (Some a)
                                alphaThreshold)
               = String c EmptyString.
Proof.
  intros Hr Hg Hb. unfold pixel_glyph, elem_lt, elem_num.
  destruct (a <? alphaThreshold)%Z.
  - exists " "%char. split; [cbn; tauto | reflexivity].
  - destruct (palette_index_band r g b Hr Hg Hb) as (lo & hi & Hin & _ & _).
    destruct (index_table_in_palette _ _ _ Hin)
      as (n & _ & _ & _ & c & Hget & Hc).
    exists c. split; [exact (string_get_in _ _ _ Hget) | ].
    cbn [fst]. rewrite Hc. reflexivity.
Qed.

Lemma fold_left_append_chars {A : Type} (P : ascii -> Prop)
      (g : A -> string) (l : list A) (row : string) :
  Forall P (list_ascii_of_string row) ->
  (forall x, In x l -> Forall P (list_ascii_of_string (g x))) ->
  Forall P (list_ascii_of_string
              (fold_left (fun row x => (row ++ g x)%string) l row)).
Proof.
  revert row. induction l as [ | a l IH]; intros row Hrow Hg; cbn [fold_left].
  - exact Hrow.
  - apply IH.
    + rewrite list_ascii_of_string_append. apply Forall_app. split.
      * exact Hrow.
      * apply Hg. left. reflexivity.
    + intros x Hx. apply Hg. right. exact Hx.
Qed.

Lemma ascii_row_palette
      (scale_filter : ImageData -> nat -> nat -> nat -> nat -> rgba)
      (imgData : ImageData) (targetWidth sh : Z) (alphaThreshold : Z)
      (y : nat) :
  y < Z.abs_nat sh ->
  Forall (fun c => In c (list_ascii_of_string ASCII_CHARS))
    (list_ascii_of_string
       (ascii_row (scaled_raster scale_filter imgData targetWidth sh)
                  alphaThreshold y)).
Proof.
  intros Hy. unfold ascii_row.
  set (resized := scaled_raster scale_filter imgData targetWidth sh).
  apply (fold_left_append_chars
           (fun c => In c (list_ascii_of_string ASCII_CHARS))
           (fun x =>
              let i := (y * width resized + x) * 4 in
              fst (pixel_glyph (nth_error (data resized) i)
                               (nth_error (data resized) (i + 1))
                               (nth_error (data resized) (i + 2))
                               (nth_error (data resized) (i + 3))
                               alphaThreshold))).
  - constructor.
  - intros x Hx. apply in_seq in Hx. cbv zeta.
    assert (Hxw : x < Z.abs_nat targetWidth) by (cbn in Hx; lia).
    subst resized. unfold scaled_raster. cbn [data width].
    match goal with
    | |- context [tabulate ?w ?h ?f] =>
        destruct (nth_error_rgba_bytes _ _ _
                    (nth_error_tabulate w h f x y Hxw Hy))
          as (Er & Eg & Eb & Ea)
    end.
    rewrite Er, Eg, Eb, Ea.
    assert (Hb : forall p : rgba,
               is_byte (red p) -> is_byte (green p) -> is_byte (blue p) ->
               Forall (fun c => In c (list_ascii_of_string ASCII_CHARS))
                 (list_ascii_of_string
                    (fst (pixel_glyph (Some (red p)) (Some (green p))
                                      (Some (blue p)) (Some (alpha p))
                                      alphaThreshold)))).
    { intros p Hr Hg Hbl.
      destruct (pixel_glyph_in_palette (red p) (green p) (blue p) (alpha p)
                  alphaThreshold Hr Hg Hbl) as (c & Hc & E).
      rewrite E. cbn. constructor; [exact Hc | constructor]. }
    destruct ((0 <? targetWidth) && (0 <? sh))%Z.
    + apply Hb; cbn [clamp_rgba red green blue]; apply clamp8_is_byte.
    + apply Hb; cbn [transparent_black red green blue]; unfold is_byte; lia.
Qed.

(** ** What a returned grid implies *)

Lemma resize_inv
      (scale_filter : ImageData -> nat -> nat -> nat -> nat -> rgba)
      (ua : UserAgent)
      (imgData resized : ImageData) (targetWidth : Z) (targetHeight : float) :
  resize scale_filter ua imgData targetWidth targetHeight = Ok resized ->
  1 <= width imgData /\ 1 <= height imgData
  /\ (- 2147483648 <= targetWidth <= 2147483647)%Z /\ targetWidth <> 0%Z
  /\ exists sh,
       JsNum.to_long targetHeight = Some sh /\ sh <> 0%Z
       /\ can_allocate ua (Z.abs_nat targetWidth) (Z.abs_nat sh) = true
       /\ resized = scaled_raster scale_filter imgData targetWidth sh.
Proof.
  unfold resize.
  destruct (width imgData =? 0) eqn:Ew; [discriminate | ].
  destruct (height imgData =? 0) eqn:Eh; [discriminate | ].
  cbn [orb].
  destruct (JsNum.to_long targetHeight) as [sh | ]; [ | discriminate ].
  destruct (- 2147483648 <=? targetWidth)%Z eqn:E1; [ | discriminate ].
  destruct (targetWidth <=? 2147483647)%Z eqn:E2; [ | discriminate ].
  cbn [andb negb].
  destruct (targetWidth =? 0)%Z eqn:E0; [discriminate | ].
  destruct (sh =? 0)%Z eqn:Es; [discriminate | ].
  cbn [orb].
  destruct (can_allocate ua (Z.abs_nat targetWidth) (Z.abs_nat sh)) eqn:Ea;
    [ | discriminate ].
  cbn [negb]. intros H.
  apply Nat.eqb_neq in Ew, Eh. apply Z.leb_le in E1, E2.
  apply Z.eqb_neq in E0, Es.
  repeat split; try lia. exists sh.
  repeat split; try assumption. congruence.
Qed.

(** The grid [imageDataToAscii] returns, and what its return implies. *)
Lemma imageDataToAscii_inv
      (scale_filter : ImageData -> nat -> nat -> nat -> nat -> rgba)
      (ua : UserAgent)
      (imgData : ImageData) (W alphaThreshold : Z) (ascii : FrameAscii) :
  imageDataToAscii scale_filter ua imgData W alphaThreshold = Ok ascii ->
  1 <= width imgData /\ 1 <= height imgData
  /\ (- 2147483648 <= W <= 2147483647)%Z /\ W <> 0%Z
  /\ exists sh,
       JsNum.to_long (targetHeight (width imgData) (height imgData) W)
       = Some sh
       /\ (1 <= sh)%Z
       /\ can_allocate ua (Z.abs_nat W) (Z.abs_nat sh) = true
       /\ ascii = map (ascii_row (scaled_raster scale_filter imgData W sh)
                                 alphaThreshold)
                      (seq 0 (Z.abs_nat sh)).
Proof.
  intros E.
  change (imageDataToAscii scale_filter ua imgData W alphaThreshold)
    with (bind (resize scale_filter ua imgData W
                       (targetHeight (width imgData) (height imgData) W))
               (fun resized =>
                  Ok (fold_left
                        (fun lines y =>
                           lines ++ [ascii_row resized alphaThreshold y])
                        (seq 0 (height resized)) []))) in E.
  destruct (resize scale_filter ua imgData W _) as [resized | e] eqn:Er;
    [ | discriminate ].
  cbn [bind] in E.
  destruct (resize_inv _ _ _ _ _ _ Er)
    as (H1 & H2 & H3 & H4 & sh & H5 & _ & H6 & ->).
  repeat (split; [assumption | ]). exists sh.
  split; [exact H5 | ].
  split; [exact (Math_max_one_long _ _ H5) | ].
  split; [exact H6 | ].
  rewrite fold_left_push in E. cbn [app] in E.
  unfold scaled_raster in E at 2. cbn [height] in E. congruence.
Qed.

(** X2: whatever the raster, the output width and the threshold, every
    character of every row of a grid [imageDataToAscii] returns is one of
    the ten characters of the palette; the text of an [undefined] lookup
    never gets into a row. *)
Theorem grid_uses_palette_only
        (scale_filter : ImageData -> nat -> nat -> nat -> nat -> rgba)
        (ua : UserAgent)
        (imgData : ImageData) (W alphaThreshold : Z) (grid : FrameAscii) :
  imageDataToAscii scale_filter ua imgData W alphaThreshold = Ok grid ->
  forall row c,
    In row grid -> In c (list_ascii_of_string row) ->
    In c (list_ascii_of_string ASCII_CHARS).
Proof.
  intros E row c Hrow Hc.
  destruct (imageDataToAscii_inv _ _ _ _ _ _ E)
    as (_ & _ & _ & _ & sh & _ & _ & _ & ->).
  apply in_map_iff in Hrow. destruct Hrow as (y & <- & Hy).
  apply in_seq in Hy.
  assert (Hrowp := ascii_row_palette scale_filter imgData W sh alphaThreshold
                     y ltac:(lia)).
  rewrite Forall_forall in Hrowp. exact (Hrowp c Hc).
Qed.

Lemma grid_uses_palette_only_witness :
  imageDataToAscii nearest_neighbour example_agent image_black 4 16
  = Ok ["@@@@"; "@@@@"]%string
  /\ forall row c,
       In row ["@@@@"; "@@@@"]%string -> In c (list_ascii_of_string row) ->
       In c (list_ascii_of_string ASCII_CHARS).
Proof.
  assert (E : imageDataToAscii nearest_neighbour example_agent image_black
                               4 16
              = Ok ["@@@@"; "@@@@"]%string) by (vm_compute; reflexivity).
  split; [exact E | ].
  exact (grid_uses_palette_only nearest_neighbour example_agent image_black
           4 16 _ E).
Defined.

(** X3: with an output width of zero no grid is made, whatever the raster
    and the threshold: the conversion ends in an exception. *)
Theorem zero_width_raises
        (scale_filter : ImageData -> nat -> nat -> nat -> nat -> rgba)
        (ua : UserAgent)
        (imgData : ImageData) (alphaThreshold : Z) :
  exists e : DOMException,
    imageDataToAscii scale_filter ua imgData 0 alphaThreshold = Err e.
Proof.
  unfold imageDataToAscii. cbv zeta. unfold resize.
  destruct ((width imgData =? 0) || (height imgData =? 0));
    [eexists; reflexivity | ].
  destruct (JsNum.to_long _) as [sh | ]; [ | eexists; reflexivity ].
  cbn. eexists. reflexivity.
Qed.

(** ** What a successful decoding implies *)

Lemma new_ImageData_inv (d : list Z) (sw sh : nat) (img : ImageData) :
  new_ImageData d sw sh = Ok img ->
  img = mkImageData d sw sh
  /\ 1 <= sw /\ 1 <= sh /\ List.length d = 4 * (sw * sh).
Proof.
  unfold new_ImageData. cbv zeta.
  destruct (List.length d =? 0) eqn:E0; [discriminate | ].
  destruct (List.length d mod 4 =? 0) eqn:E4; [ | discriminate ].
  destruct (sw =? 0) eqn:Es; [discriminate | ].
  destruct (List.length d / 4 mod sw =? 0) eqn:Em; [ | discriminate ].
  destruct (sh =? List.length d / 4 / sw) eqn:Eh; [ | discriminate ].
  cbn. intros H. injection H as <-.
  apply Nat.eqb_neq in E0, Es. apply Nat.eqb_eq in E4, Em, Eh.
  pose proof (Nat.div_mod_eq (List.length d) 4) as H4.
  pose proof (Nat.div_mod_eq (List.length d / 4) sw) as Hs.
  rewrite E4 in H4. rewrite Em, <- Eh in Hs.
  repeat split; nia.
Qed.

(** The write of a patch succeeds exactly on a well-formed frame. *)
Lemma draw_patch_wf (ua : UserAgent) (ctx ctx1 : Canvas) (f : Gifuct.Frame) :
  draw_patch ua ctx f = Ok ctx1 -> wf_frame f.
Proof.
  unfold draw_patch, wf_frame.
  destruct (Gifuct.patch f) as [p | ]; [ | trivial ]. cbv zeta.
  destruct (new_ImageData (map clamp8 p) (Gifuct.width (Gifuct.dims f))
                          (Gifuct.height (Gifuct.dims f)))
    as [img | e] eqn:E; [ | discriminate ].
  intros _. destruct (new_ImageData_inv _ _ _ _ E) as (_ & Hw & Hh & Hlen).
  rewrite length_map in Hlen. auto.
Qed.

Lemma draw_patch_size (ua : UserAgent) (ctx ctx1 : Canvas)
      (f : Gifuct.Frame) :
  draw_patch ua ctx f = Ok ctx1 ->
  cwidth ctx1 = cwidth ctx /\ cheight ctx1 = cheight ctx.
Proof.
  unfold draw_patch.
  destruct (Gifuct.patch f) as [p | ].
  - cbv zeta. destruct (new_ImageData _ _ _) as [img | e]; [ | discriminate ].
    cbn [bind]. intros H. injection H as <-. split; reflexivity.
  - intros H. injection H as <-. split; reflexivity.
Qed.

Lemma dispose_size (ctx : Canvas) (f : Gifuct.Frame) :
  cwidth (dispose ctx f) = cwidth ctx /\ cheight (dispose ctx f) = cheight ctx.
Proof.
  unfold dispose. cbv zeta.
  destruct (Gifuct.disposalType f =? 2)%Z; [split; reflexivity | ].
  destruct (Gifuct.disposalType f =? 3)%Z; split; reflexivity.
Qed.

Section Decoding.

Variable scale_filter : ImageData -> nat -> nat -> nat -> nat -> rgba.
Variable ua : UserAgent.
Variables logicalWidth logicalHeight : nat.
Variables width alphaThreshold : Z.

Lemma frame_step_conditions (ctx : Canvas) (f : Gifuct.Frame)
      (full : ImageData) (ascii : FrameAscii) (ctx' : Canvas) :
  frame_step scale_filter ua logicalWidth logicalHeight width alphaThreshold
             ctx f = Ok (full, ascii, ctx') ->
  wf_frame f /\ can_render ua logicalWidth logicalHeight width.
Proof.
  intros H.
  destruct (frame_step_inv _ _ _ _ _ _ _ _ _ _ _ H)
    as (ctx1 & E1 & E2 & E3 & _).
  split; [exact (draw_patch_wf _ _ _ _ E1) | ].
  destruct (getImageData_pixels _ _ _ _ _ E2) as (Hw & Hh & _).
  destruct (getImageData_inv _ _ _ _ _ E2) as (Hlw & Hlh & Ha).
  destruct (imageDataToAscii_inv _ _ _ _ _ _ E3)
    as (_ & _ & H3 & H4 & sh & H5 & _ & H6 & _).
  rewrite Hw, Hh in H5.
  unfold can_render. repeat (split; [assumption || lia | ]).
  exists sh. split; assumption.
Qed.

Lemma render_frames_conditions (fs : list Gifuct.Frame) (ctx : Canvas)
      (acc out : list FrameAscii) (ctx' : Canvas) :
  render_frames scale_filter ua logicalWidth logicalHeight width
                alphaThreshold ctx acc fs = Ok (out, ctx') ->
  Forall wf_frame fs
  /\ List.length out = List.length acc + List.length fs
  /\ (fs <> [] -> can_render ua logicalWidth logicalHeight width).
Proof.
  revert ctx acc. induction fs as [ | f fs IH]; intros ctx acc H.
  - cbn in H. injection H as <- _.
    split; [constructor | ]. split; [cbn; lia | ]. intros Hne. now elim Hne.
  - cbn [render_frames] in H.
    destruct (frame_step scale_filter ua logicalWidth logicalHeight width
                         alphaThreshold ctx f)
      as [[[full ascii] ctx1] | e] eqn:E; [ | discriminate ].
    cbn [bind] in H.
    destruct (frame_step_conditions _ _ _ _ _ E) as [Hwf Hcan].
    destruct (IH _ _ H) as (Hwfs & Hlen & _).
    split; [constructor; assumption | ].
    split; [rewrite Hlen, length_app; cbn; lia | ].
    intros _. exact Hcan.
Qed.

(** Every grid the loop adds has the property every conversion of a
    logical-size raster has. *)
Lemma render_frames_forall (P : FrameAscii -> Prop) :
  (forall full ascii,
     Dom.width full = logicalWidth -> Dom.height full = logicalHeight ->
     imageDataToAscii scale_filter ua full width alphaThreshold = Ok ascii ->
     P ascii) ->
  forall (fs : list Gifuct.Frame) (ctx : Canvas) (acc out : list FrameAscii)
         (ctx' : Canvas),
    Forall P acc ->
    render_frames scale_filter ua logicalWidth logicalHeight width
                  alphaThreshold ctx acc fs = Ok (out, ctx') ->
    Forall P out.
Proof.
  intros HP. induction fs as [ | f fs IH]; intros ctx acc out ctx' Hacc H.
  - cbn in H. injection H as <- _. exact Hacc.
  - cbn [render_frames] in H.
    destruct (frame_step scale_filter ua logicalWidth logicalHeight width
                         alphaThreshold ctx f)
      as [[[full ascii] ctx1] | e] eqn:E; [ | discriminate ].
    cbn [bind] in H.
    destruct (frame_step_inv _ _ _ _ _ _ _ _ _ _ _ E)
      as (c1 & _ & E2 & E3 & _).
    destruct (getImageData_pixels _ _ _ _ _ E2) as (Hw & Hh & _).
    apply (IH _ _ _ _ (proj2 (Forall_app _ _ _)
                         (conj Hacc (Forall_cons _ (HP _ _ Hw Hh E3)
                                                   (Forall_nil _)))) H).
Qed.

End Decoding.

Lemma decodeGifFromBytes_inv
      (scale_filter : ImageData -> nat -> nat -> nat -> nat -> rgba)
      (ua : UserAgent)
      (gif : Gifuct.ParsedGif) (s s' : App.State) :
  decodeGifFromBytes scale_filter ua gif s = Ok s' ->
  exists out ctx',
    render_frames scale_filter ua (Gifuct.lsd_width gif)
      (Gifuct.lsd_height gif) (App.width s) (App.alphaThreshold s)
      (clearRect (createCanvas (Gifuct.lsd_width gif) (Gifuct.lsd_height gif))
                 0 0 (Gifuct.lsd_width gif) (Gifuct.lsd_height gif))
      [] (Gifuct.decompressed gif) = Ok (out, ctx')
    /\ s' = setIndex (Some 0%Z) (setFrames (Some out) s).
Proof.
  unfold decodeGifFromBytes. cbv zeta.
  destruct (render_frames _ _ _ _ _ _ _ _ _) as [[out ctx'] | e];
    [ | discriminate ].
  cbn [bind fst]. intros H. injection H as <-.
  exists out, ctx'. split; reflexivity.
Qed.

(** X4: a decoding that succeeds installs exactly one grid per frame of
    the animation, and leaves the URL, the output width, the frame rate
    and the alpha threshold of the component as they were. *)
Theorem decode_one_grid_per_frame
        (scale_filter : ImageData -> nat -> nat -> nat -> nat -> rgba)
        (ua : UserAgent)
        (gif : Gifuct.ParsedGif) (s s' : App.State) :
  decodeGifFromBytes scale_filter ua gif s = Ok s' ->
  (exists out, App.frames s' = Some out
               /\ List.length out = List.length (Gifuct.decompressed gif))
  /\ App.gifUrl s' = App.gifUrl s /\ App.width s' = App.width s
  /\ App.fps s' = App.fps s /\ App.alphaThreshold s' = App.alphaThreshold s.
Proof.
  intros H.
  destruct (decodeGifFromBytes_inv _ _ _ _ _ H) as (out & ctx' & E & ->).
  destruct (render_frames_conditions _ _ _ _ _ _ _ _ _ _ _ E)
    as (_ & Hlen & _).
  split; [exists out; split; [reflexivity | exact Hlen] | ].
  repeat split.
Qed.

Lemma decode_one_grid_per_frame_witness :
  decodeGifFromBytes nearest_neighbour example_agent scenario_gif busy_state
  = Ok busy_state_after
  /\ (exists out, App.frames busy_state_after = Some out
                  /\ List.length out
                     = List.length (Gifuct.decompressed scenario_gif))
  /\ App.gifUrl busy_state_after = App.gifUrl busy_state
  /\ App.width busy_state_after = App.width busy_state
  /\ App.fps busy_state_after = App.fps busy_state
  /\ App.alphaThreshold busy_state_after = App.alphaThreshold busy_state.
Proof.
  assert (E : decodeGifFromBytes nearest_neighbour example_agent
                                 scenario_gif busy_state
              = Ok busy_state_after) by (vm_compute; reflexivity).
  split; [exact E | ].
  exact (decode_one_grid_per_frame nearest_neighbour example_agent
           scenario_gif busy_state busy_state_after E).
Defined.

(** X5: with a positive output width, an animation with at least one
    frame is decoded without an exception exactly when every patch has at
    least one pixel and four bytes per pixel of its rectangle, the logical
    screen has at least one pixel and the user agent can allocate its
    snapshot, the output width is a [long], the target height is a
    [long], and the user agent can allocate the raster of that width and
    height. *)
Theorem decode_succeeds_iff
        (scale_filter : ImageData -> nat -> nat -> nat -> nat -> rgba)
        (ua : UserAgent)
        (gif : Gifuct.ParsedGif) (s : App.State) :
  Gifuct.decompressed gif <> [] ->
  (1 <= App.width s)%Z ->
  (exists s', decodeGifFromBytes scale_filter ua gif s = Ok s')
  <-> Forall wf_frame (Gifuct.decompressed gif)
      /\ can_render ua (Gifuct.lsd_width gif) (Gifuct.lsd_height gif)
                    (App.width s).
Proof.
  intros Hne Hpos. split.
  - intros [s' H].
    destruct (decodeGifFromBytes_inv _ _ _ _ _ H) as (out & ctx' & E & _).
    destruct (render_frames_conditions _ _ _ _ _ _ _ _ _ _ _ E)
      as (Hwf & _ & Hcan).
    split; [exact Hwf | exact (Hcan Hne)].
  - intros [Hwf (Hlw & Hlh & Ha & HW & _ & H & HH & Han)].
    assert (HW' : (1 <= App.width s <= 2147483647)%Z) by lia.
    assert (H1 : (1 <= H)%Z) by exact (Math_max_one_long _ _ HH).
    rewrite !Zabs2Nat.abs_nat_nonneg in Han by lia.
    destruct (render_frames_ok scale_filter ua _ _ _ (App.alphaThreshold s)
                _ H Hlw Hlh Ha HW' HH Han Hwf
                (clearRect (createCanvas (Gifuct.lsd_width gif)
                                         (Gifuct.lsd_height gif))
                           0 0 (Gifuct.lsd_width gif) (Gifuct.lsd_height gif))
                []) as (out & ctx' & E & _).
    cbn [app] in E. eexists.
    exact (decodeGifFromBytes_frames _ _ _ _ _ _ E).
Qed.

Lemma decode_succeeds_iff_witness :
  Gifuct.decompressed scenario_gif <> []
  /\ (1 <= App.width busy_state)%Z
  /\ ((exists s', decodeGifFromBytes nearest_neighbour example_agent
                                     scenario_gif busy_state = Ok s')
      <-> Forall wf_frame (Gifuct.decompressed scenario_gif)
          /\ can_render example_agent (Gifuct.lsd_width scenario_gif)
                        (Gifuct.lsd_height scenario_gif)
                        (App.width busy_state)).
Proof.
  assert (Hne : Gifuct.decompressed scenario_gif <> []) by discriminate.
  assert (Hpos : (1 <= App.width busy_state)%Z) by (cbn; lia).
  repeat (split; [assumption | ]).
  exact (decode_succeeds_iff nearest_neighbour example_agent scenario_gif
           busy_state Hne Hpos).
Defined.

(** The shape every grid of a conversion at the logical size has. *)
Lemma logical_grid_shape
      (scale_filter : ImageData -> nat -> nat -> nat -> nat -> rgba)
      (ua : UserAgent)
      (logicalWidth logicalHeight : nat) (W alphaThreshold : Z)
      (full : ImageData) (ascii : FrameAscii) :
  (1 <= W)%Z ->
  Dom.width full = logicalWidth -> Dom.height full = logicalHeight ->
  imageDataToAscii scale_filter ua full W alphaThreshold = Ok ascii ->
  (forall H,
     JsNum.to_long (targetHeight logicalWidth logicalHeight W) = Some H ->
     List.length ascii = Z.to_nat H)
  /\ Forall (fun row => String.length row = Z.to_nat W) ascii.
Proof.
  intros HW Hw Hh E.
  destruct (imageDataToAscii_inv _ _ _ _ _ _ E)
    as (_ & _ & _ & _ & sh & H5 & Hsh & _ & ->).
  rewrite Hw, Hh in H5. split.
  - intros H HH. rewrite H5 in HH. injection HH as <-.
    rewrite length_map, length_seq. apply Zabs2Nat.abs_nat_nonneg. lia.
  - apply Forall_forall. intros row Hrow. apply in_map_iff in Hrow.
    destruct Hrow as (y & <- & Hy). apply in_seq in Hy.
    rewrite <- Zabs2Nat.abs_nat_nonneg by lia.
    apply ascii_row_length; lia.
Qed.

(** X6: in the sequence a decoding installs, with a positive output width
    [W], every row of every grid has [W] characters, every grid has [H]
    rows, [H] being the target height of the logical screen, and so any two
    grids have as many rows. *)
Theorem sequence_is_uniform
        (scale_filter : ImageData -> nat -> nat -> nat -> nat -> rgba)
        (ua : UserAgent)
        (gif : Gifuct.ParsedGif) (s s' : App.State) :
  decodeGifFromBytes scale_filter ua gif s = Ok s' ->
  (1 <= App.width s)%Z ->
  exists out,
    App.frames s' = Some out
    /\ (forall grid row,
          In grid out -> In row grid ->
          String.length row = Z.to_nat (App.width s))
    /\ (forall H grid,
          JsNum.to_long (targetHeight (Gifuct.lsd_width gif)
                                      (Gifuct.lsd_height gif)
                                      (App.width s)) = Some H ->
          In grid out -> List.length grid = Z.to_nat H)
    /\ (forall grid1 grid2,
          In grid1 out -> In grid2 out ->
          List.length grid1 = List.length grid2).
Proof.
  intros H HW.
  destruct (decodeGifFromBytes_inv _ _ _ _ _ H) as (out & ctx' & E & ->).
  exists out. split; [reflexivity | ].
  pose proof (render_frames_forall scale_filter ua _ _ _ _ _
                (fun full ascii Hw Hh Ea =>
                   logical_grid_shape scale_filter ua _ _ _ _ full ascii
                                      HW Hw Hh Ea)
                _ _ _ _ _ (Forall_nil _) E) as Hall.
  rewrite Forall_forall in Hall.
  assert (Hrows : forall grid row,
             In grid out -> In row grid ->
             String.length row = Z.to_nat (App.width s)).
  { intros grid row Hg Hr. destruct (Hall grid Hg) as [_ Hf].
    rewrite Forall_forall in Hf. exact (Hf row Hr). }
  assert (Hlen : forall H grid,
             JsNum.to_long (targetHeight (Gifuct.lsd_width gif)
                                         (Gifuct.lsd_height gif)
                                         (App.width s)) = Some H ->
             In grid out -> List.length grid = Z.to_nat H).
  { intros H0 grid HH Hg. exact (proj1 (Hall grid Hg) H0 HH). }
  repeat (split; [assumption | ]).
  intros grid1 grid2 H1 H2.
  destruct (render_frames_conditions _ _ _ _ _ _ _ _ _ _ _ E)
    as (_ & Hn & Hcan).
  assert (Hne : Gifuct.decompressed gif <> []).
  { intros Hnil. rewrite Hnil in Hn. cbn in Hn.
    destruct out; [contradiction | discriminate]. }
  destruct (Hcan Hne) as (_ & _ & _ & _ & _ & H0 & HH & _).
  rewrite (Hlen H0 grid1 HH H1), (Hlen H0 grid2 HH H2). reflexivity.
Qed.

Lemma sequence_is_uniform_witness :
  decodeGifFromBytes nearest_neighbour example_agent scenario_gif busy_state
  = Ok busy_state_after
  /\ (1 <= App.width busy_state)%Z
  /\ exists out,
       App.frames busy_state_after = Some out
       /\ (forall grid row,
             In grid out -> In row grid ->
             String.length row = Z.to_nat (App.width busy_state))
       /\ (forall H grid,
             JsNum.to_long (targetHeight (Gifuct.lsd_width scenario_gif)
                                         (Gifuct.lsd_height scenario_gif)
                                         (App.width busy_state)) = Some H ->
             In grid out -> List.length grid = Z.to_nat H)
       /\ (forall grid1 grid2,
             In grid1 out -> In grid2 out ->
             List.length grid1 = List.length grid2).
Proof.
  assert (E : decodeGifFromBytes nearest_neighbour example_agent
                                 scenario_gif busy_state
              = Ok busy_state_after) by (vm_compute; reflexivity).
  assert (HW : (1 <= App.width busy_state)%Z) by (cbn; lia).
  repeat (split; [assumption | ]).
  exact (sequence_is_uniform nearest_neighbour example_agent scenario_gif
           busy_state busy_state_after E HW).
Defined.

(** ** Consecutive frames *)

Lemma dispose_pixels (c : Canvas) (f : Gifuct.Frame) (x y : nat) :
  x < cwidth c -> y < cheight c ->
  pixel_at (dispose c f) x y
  = if clears f x y then transparent_black else pixel_at c x y.
Proof.
  intros Hx Hy. unfold dispose, clears. cbv zeta.
  destruct (Gifuct.disposalType f =? 2)%Z.
  - cbn [orb andb]. apply clearRect_pixels; assumption.
  - destruct (Gifuct.disposalType f =? 3)%Z.
    + cbn [orb andb]. apply clearRect_pixels; assumption.
    + reflexivity.
Qed.

Lemma draw_patch_in_patch (ua : UserAgent) (ctx ctx1 : Canvas)
      (f : Gifuct.Frame) (x y : nat) :
  draw_patch ua ctx f = Ok ctx1 ->
  x < cwidth ctx -> y < cheight ctx ->
  pixel_at ctx1 x y
  = if in_patch f x y
    then match Gifuct.patch f with
         | Some p => stored ua (patch_pixel f p x y)
         | None => transparent_black
         end
    else pixel_at ctx x y.
Proof.
  intros E Hx Hy. unfold in_patch, patch_pixel.
  destruct (Gifuct.patch f) as [p | ] eqn:Hp.
  - exact (proj2 (proj2 (draw_patch_pixels _ _ _ _ _ E Hp)) x y Hx Hy).
  - unfold draw_patch in E. rewrite Hp in E. injection E as <-. reflexivity.
Qed.

(** X7: the snapshot of a frame, pixel by pixel, from the snapshot of the
    frame before it: inside the frame's patch it is the patch's pixel as
    the user agent's canvas keeps it ([stored]: a pixel that is not opaque
    may read back changed); elsewhere it is transparent where the frame
    before was disposed of (methods 2 and 3, inside that frame's
    rectangle) and the earlier snapshot's pixel everywhere else. *)
Theorem consecutive_snapshots
        (scale_filter : ImageData -> nat -> nat -> nat -> nat -> rgba)
        (ua : UserAgent)
        (logicalWidth logicalHeight : nat) (width alphaThreshold : Z)
        (ctx ctx1 ctx2 : Canvas) (f1 f2 : Gifuct.Frame)
        (full1 full2 : ImageData) (ascii1 ascii2 : FrameAscii) :
  cwidth ctx = logicalWidth -> cheight ctx = logicalHeight ->
  frame_step scale_filter ua logicalWidth logicalHeight width alphaThreshold
             ctx f1 = Ok (full1, ascii1, ctx1) ->
  frame_step scale_filter ua logicalWidth logicalHeight width alphaThreshold
             ctx1 f2 = Ok (full2, ascii2, ctx2) ->
  forall x y, x < logicalWidth -> y < logicalHeight ->
    image_pixel full2 x y
    = if in_patch f2 x y
      then match Gifuct.patch f2 with
           | Some p => stored ua (patch_pixel f2 p x y)
           | None => transparent_black
           end
      else if clears f1 x y then transparent_black
           else image_pixel full1 x y.
Proof.
  intros Hcw Hch H1 H2 x y Hx Hy.
  destruct (frame_step_inv _ _ _ _ _ _ _ _ _ _ _ H1)
    as (ctxa & Ea1 & Ea2 & _ & ->).
  destruct (frame_step_inv _ _ _ _ _ _ _ _ _ _ _ H2)
    as (ctxb & Eb1 & Eb2 & _ & _).
  destruct (getImageData_pixels _ _ _ _ _ Ea2) as (_ & _ & Hpa).
  destruct (getImageData_pixels _ _ _ _ _ Eb2) as (_ & _ & Hpb).
  destruct (draw_patch_size _ _ _ _ Ea1) as [Hwa Hha].
  destruct (dispose_size ctxa f1) as [Hwd Hhd].
  rewrite (Hpb x y Hx Hy), (Hpa x y Hx Hy).
  rewrite (draw_patch_in_patch _ _ _ _ x y Eb1) by lia.
  rewrite dispose_pixels by lia. reflexivity.
Qed.

Lemma consecutive_snapshots_witness :
  cwidth (createCanvas 4 4) = 4 /\ cheight (createCanvas 4 4) = 4
  /\ frame_step nearest_neighbour example_agent 4 4 4 16 (createCanvas 4 4)
                frame_black
     = Ok (step_full scenario_step1, step_ascii scenario_step1,
           step_canvas scenario_step1)
  /\ frame_step nearest_neighbour example_agent 4 4 4 16
                (step_canvas scenario_step1) frame_white
     = Ok (step_full scenario_step2, step_ascii scenario_step2,
           step_canvas scenario_step2)
  /\ forall x y, x < 4 -> y < 4 ->
       image_pixel (step_full scenario_step2) x y
       = if in_patch frame_white x y
         then match Gifuct.patch frame_white with
              | Some p => stored example_agent (patch_pixel frame_white p x y)
              | None => transparent_black
              end
         else if clears frame_black x y then transparent_black
              else image_pixel (step_full scenario_step1) x y.
Proof.
  assert (Hw : cwidth (createCanvas 4 4) = 4) by reflexivity.
  assert (Hh : cheight (createCanvas 4 4) = 4) by reflexivity.
  assert (E1 : frame_step nearest_neighbour example_agent 4 4 4 16
                          (createCanvas 4 4) frame_black
               = Ok (step_full scenario_step1, step_ascii scenario_step1,
                     step_canvas scenario_step1))
    by (vm_compute; reflexivity).
  assert (E2 : frame_step nearest_neighbour example_agent 4 4 4 16
                          (step_canvas scenario_step1) frame_white
               = Ok (step_full scenario_step2, step_ascii scenario_step2,
                     step_canvas scenario_step2))
    by (vm_compute; reflexivity).
  repeat (split; [assumption | ]).
  exact (consecutive_snapshots nearest_neighbour example_agent 4 4 4 16
           (createCanvas 4 4) _ _ frame_black frame_white _ _ _ _
           Hw Hh E1 E2).
Defined.

(** ** The timer period *)

Lemma delay_ok_all : forallb delay_ok fps_range = true.
Proof. vm_compute. reflexivity. Qed.

(** X8: for a frame rate from 1 to 4000 the period of the timer is
    [1000 / fps] rounded to the nearest millisecond, halves upwards, and
    never less than 1; for the negated rate it is 1; and whatever the rate,
    a period that is a [long] is at least 1. *)
Theorem timer_delay_rounds (fps : Z) :
  (1 <= fps <= 4000)%Z ->
  JsNum.to_long (timer_delay fps)
  = Some (Z.max 1 ((2000 + fps) / (2 * fps)))%Z
  /\ timer_delay (- fps) = 1%float
  /\ forall (fps' n : Z),
       JsNum.to_long (timer_delay fps') = Some n -> (1 <= n)%Z.
Proof.
  intros Hfps.
  assert (Hin : In fps fps_range).
  { unfold fps_range. apply in_map_iff. exists (Z.to_nat fps).
    split; [lia | apply in_seq; lia]. }
  pose proof (proj1 (forallb_forall _ _) delay_ok_all fps Hin) as H.
  unfold delay_ok in H. apply andb_true_iff in H. destruct H as [H1 H2].
  split; [ | split ].
  - destruct (JsNum.to_long (timer_delay fps)) as [n | ]; [ | discriminate ].
    apply Z.eqb_eq in H1. rewrite H1. reflexivity.
  - apply FloatAxioms.Leibniz.eqb_spec. exact H2.
  - intros fps' n. unfold timer_delay. apply Math_max_one_long.
Qed.

Lemma timer_delay_rounds_witness :
  (1 <= 12 <= 4000)%Z
  /\ JsNum.to_long (timer_delay 12) = Some 83%Z
  /\ timer_delay (- 12) = 1%float.
Proof.
  assert (H : (1 <= 12 <= 4000)%Z) by lia.
  split; [exact H | ].
  destruct (timer_delay_rounds 12 H) as (H1 & H2 & _).
  split; [exact H1 | exact H2].
Defined.

(** ** Playback: how the events compose *)

Lemma setIndex_same (s : App.State) : setIndex (App.index s) s = s.
Proof. destruct s. reflexivity. Qed.

Lemma setIndex_twice (v w : option Z) (s : App.State) :
  setIndex v (setIndex w s) = setIndex v s.
Proof. reflexivity. Qed.

(** X9: while the animation plays, [k] firings of the timer move the index
    from [i] to [(i + k) mod N] and change nothing else; after [N] firings
    the index is [i] again. *)
Theorem ticks_advance (s : App.State) (fs : list FrameAscii) (i : Z)
        (k : nat) :
  App.frames s = Some fs ->
  App.playing s = true ->
  App.index s = Some i ->
  (0 <= i < Z.of_nat (List.length fs))%Z ->
  let N := Z.of_nat (List.length fs) in
  Nat.iter k timer_tick s = setIndex (Some ((i + Z.of_nat k) mod N)%Z) s
  /\ Nat.iter (List.length fs) timer_tick s = s.
Proof.
  intros Hfs Hpl Hi Hrange N.
  assert (Hk : forall j,
             Nat.iter j timer_tick s
             = setIndex (Some ((i + Z.of_nat j) mod N)%Z) s).
  { intros j. induction j as [ | k' IH].
    - change (Nat.iter 0 timer_tick s) with s.
      change (Z.of_nat 0) with 0%Z.
      rewrite Z.add_0_r, Z.mod_small by exact Hrange.
      rewrite <- Hi. symmetry. apply setIndex_same.
    - rewrite Nat.iter_succ, IH. unfold timer_tick.
      cbn [App.frames App.playing App.index setIndex].
      rewrite Hfs, Hpl. fold N.
      assert (Hb : (0 <= (i + Z.of_nat k') mod N < N)%Z)
        by (apply Z.mod_pos_bound; lia).
      rewrite (js_rem_next _ _ Hb), Z.add_mod_idemp_l by lia.
      rewrite setIndex_twice. do 3 f_equal. lia. }
  split; [apply Hk | ].
  rewrite Hk. fold N.
  rewrite <- (Z.mul_1_l N) at 1. rewrite Z.mod_add by lia.
  rewrite Z.mod_small by exact Hrange. rewrite <- Hi. apply setIndex_same.
Qed.

Lemma ticks_advance_witness :
  App.frames busy_state = Some [["%"]; ["#"]]%string
  /\ App.playing busy_state = true
  /\ App.index busy_state = Some 1%Z
  /\ (0 <= 1 < Z.of_nat (List.length [["%"]; ["#"]]%string))%Z
  /\ Nat.iter 3 timer_tick busy_state = setIndex (Some 0%Z) busy_state
  /\ Nat.iter 2 timer_tick busy_state = busy_state.
Proof.
  assert (H1 : App.frames busy_state = Some [["%"]; ["#"]]%string)
    by reflexivity.
  assert (H2 : App.playing busy_state = true) by reflexivity.
  assert (H3 : App.index busy_state = Some 1%Z) by reflexivity.
  assert (H4 : (0 <= 1 < Z.of_nat (List.length [["%"]; ["#"]]%string))%Z)
    by (cbn; lia).
  repeat (split; [assumption | ]).
  exact (ticks_advance busy_state _ 1 3 H1 H2 H3 H4).
Defined.

(** X10: with an index in range, [Next] undoes [Prev] and [Prev] undoes
    [Next]: either pair of clicks gives back the state it started from. *)
Theorem prev_next_inverse (s : App.State) (fs : list FrameAscii) (i : Z) :
  App.frames s = Some fs ->
  App.index s = Some i ->
  (0 <= i < Z.of_nat (List.length fs))%Z ->
  click_prev (click_next s) = s /\ click_next (click_prev s) = s.
Proof.
  intros Hfs Hi Hrange.
  set (N := Z.of_nat (List.length fs)) in *.
  assert (Hb1 : (0 <= (i + 1) mod N < N)%Z)
    by (apply Z.mod_pos_bound; lia).
  assert (Hb2 : (0 <= (i - 1 + N) mod N < N)%Z)
    by (apply Z.mod_pos_bound; lia).
  unfold click_prev, click_next. rewrite Hfs. cbv zeta.
  cbn [App.frames App.index setIndex]. rewrite Hfs, Hi. fold N.
  rewrite (js_rem_next i N Hrange), (js_rem_prev i N Hrange).
  rewrite (js_rem_prev _ N Hb1), (js_rem_next _ N Hb2).
  rewrite !setIndex_twice.
  assert (E1 : (((i + 1) mod N - 1 + N) mod N = i)%Z).
  { rewrite <- Z.add_sub_swap, <- Z.add_sub_assoc.
    rewrite Z.add_mod_idemp_l by lia.
    replace (i + 1 + (N - 1))%Z with (i + 1 * N)%Z by lia.
    rewrite Z.mod_add by lia. apply Z.mod_small; lia. }
  assert (E2 : (((i - 1 + N) mod N + 1) mod N = i)%Z).
  { rewrite Z.add_mod_idemp_l by lia.
    replace (i - 1 + N + 1)%Z with (i + 1 * N)%Z by lia.
    rewrite Z.mod_add by lia. apply Z.mod_small; lia. }
  rewrite E1, E2, <- Hi. split; apply setIndex_same.
Qed.

Lemma prev_next_inverse_witness :
  App.frames paused_state = Some [["@"]; ["%"]; ["#"]]%string
  /\ App.index paused_state = Some 0%Z
  /\ (0 <= 0 < Z.of_nat (List.length [["@"]; ["%"]; ["#"]]%string))%Z
  /\ click_prev (click_next paused_state) = paused_state
  /\ click_next (click_prev paused_state) = paused_state.
Proof.
  assert (H1 : App.frames paused_state = Some [["@"]; ["%"]; ["#"]]%string)
    by reflexivity.
  assert (H2 : App.index paused_state = Some 0%Z) by reflexivity.
  assert (H3 : (0 <= 0
                < Z.of_nat (List.length [["@"]; ["%"]; ["#"]]%string))%Z)
    by (cbn; lia).
  repeat (split; [assumption | ]).
  exact (prev_next_inverse paused_state _ 0 H1 H2 H3).
Defined.


(** ** The frame editor *)

Lemma split_lines_nonempty (text : string) : split_lines text <> [].
Proof.
  destruct text as [ | c rest]; cbn [split_lines]; [discriminate | ].
  destruct (Ascii.eqb c newline); [discriminate | ].
  destruct (split_lines rest); discriminate.
Qed.

Lemma join_lines_cons (r : string) (rows : list string) :
  rows <> [] ->
  join_lines (r :: rows) = (r ++ String newline (join_lines rows))%string.
Proof. destruct rows; [intros H; now elim H | reflexivity]. Qed.

Lemma join_split_lines (text : string) : join_lines (split_lines text) = text.
Proof.
  induction text as [ | c rest IH]; [reflexivity | ].
  cbn [split_lines]. destruct (Ascii.eqb c newline) eqn:E.
  - apply Ascii.eqb_eq in E. subst c.
    rewrite join_lines_cons by apply split_lines_nonempty.
    rewrite IH. reflexivity.
  - pose proof (split_lines_nonempty rest) as Hne.
    destruct (split_lines rest) as [ | r rs]; [now elim Hne | ].
    destruct rs as [ | r' rs'].
    + cbn [join_lines] in *. rewrite IH. reflexivity.
    + rewrite join_lines_cons in IH |- * by discriminate.
      cbn [append]. rewrite IH. reflexivity.
Qed.

Lemma split_lines_row (r t : string) :
  no_newline r ->
  split_lines (r ++ String newline t) = r :: split_lines t.
Proof.
  unfold no_newline. induction r as [ | c r IH]; intros Hr.
  - cbn. reflexivity.
  - cbn [append split_lines].
    destruct (Ascii.eqb c newline) eqn:E.
    + apply Ascii.eqb_eq in E. subst c. elim Hr. left. reflexivity.
    + rewrite IH by (intros H; apply Hr; right; exact H). reflexivity.
Qed.

Lemma split_lines_single (r : string) :
  no_newline r -> split_lines r = [r].
Proof.
  unfold no_newline. induction r as [ | c r IH]; intros Hr; [reflexivity | ].
  cbn [split_lines]. destruct (Ascii.eqb c newline) eqn:E.
  - apply Ascii.eqb_eq in E. subst c. elim Hr. left. reflexivity.
  - rewrite IH by (intros H; apply Hr; right; exact H). reflexivity.
Qed.

Lemma split_join_lines (rows : list string) :
  rows <> [] -> Forall no_newline rows ->
  split_lines (join_lines rows) = rows.
Proof.
  induction rows as [ | r rows IH]; intros Hne Hrows; [now elim Hne | ].
  inversion Hrows as [ | ? ? Hr Hrest]; subst.
  destruct rows as [ | r' rows'].
  - cbn [join_lines]. apply split_lines_single. exact Hr.
  - rewrite join_lines_cons by discriminate.
    rewrite split_lines_row by exact Hr.
    rewrite IH by (discriminate || assumption). reflexivity.
Qed.

(** Assignment to an index within the array. *)
Lemma array_assign_in_range {A : Type} (l : list A) (i : Z) (v : A) :
  (0 <= i < Z.of_nat (List.length l))%Z ->
  exists l',
    array_assign l (Some i) v = Some l'
    /\ List.length l' = List.length l
    /\ nth_error l' (Z.to_nat i) = Some v
    /\ forall j, j <> Z.to_nat i -> nth_error l' j = nth_error l j.
Proof.
  intros Hi. unfold array_assign.
  test_false (i <? 0)%Z. test_true (i <? Z.of_nat (List.length l))%Z.
  set (n := Z.to_nat i). assert (Hn : n < List.length l) by lia.
  eexists. split; [reflexivity | ].
  assert (Hf : List.length (firstn n l) = n)
    by (rewrite length_firstn; lia).
  split; [ | split ].
  - rewrite length_app, Hf. cbn [List.length]. rewrite length_skipn. lia.
  - rewrite nth_error_app2 by lia. rewrite Hf, Nat.sub_diag. reflexivity.
  - intros j Hj. destruct (Nat.lt_ge_cases j n) as [Hlt | Hge].
    + rewrite nth_error_app1 by lia. rewrite nth_error_firstn.
      test_true (j <? n). reflexivity.
    + rewrite nth_error_app2 by lia. rewrite Hf.
      destruct (j - n) as [ | m] eqn:Em; [lia | ].
      cbn [nth_error]. rewrite nth_error_skipn. f_equal. lia.
Qed.

Lemma frame_at_in_range (fs : list FrameAscii) (i : Z) :
  (0 <= i)%Z -> frame_at fs (Some i) = nth_error fs (Z.to_nat i).
Proof. intros Hi. unfold frame_at. test_false (i <? 0)%Z. reflexivity. Qed.

(** X12: an edit made while the index is in range replaces the frame at
    the index by the lines of the text and nothing else: the number of
    frames, the other frames, the index and the running flag stay; and the
    preview of the new state is the text as it was typed. *)
Theorem edit_replaces_current_frame (text : string) (s : App.State)
        (fs : list FrameAscii) (i : Z) :
  App.frames s = Some fs ->
  App.index s = Some i ->
  (0 <= i < Z.of_nat (List.length fs))%Z ->
  exists (s' : App.State) (fs' : list FrameAscii),
    applyFrameEdit text s = Some s'
    /\ App.frames s' = Some fs'
    /\ List.length fs' = List.length fs
    /\ frame_at fs' (Some i) = Some (split_lines text)
    /\ (forall j, (0 <= j)%Z -> j <> i ->
                  frame_at fs' (Some j) = frame_at fs (Some j))
    /\ App.index s' = App.index s /\ App.playing s' = App.playing s
    /\ preview s' = Ok text.
Proof.
  intros Hfs Hi Hrange.
  destruct (array_assign_in_range fs i (split_lines text) Hrange)
    as (fs' & E & Hlen & Hat & Hother).
  exists (setFrames (Some fs') s), fs'.
  unfold applyFrameEdit. rewrite Hfs, Hi. cbv zeta. rewrite E.
  split; [reflexivity | ]. split; [reflexivity | ].
  split; [exact Hlen | ].
  assert (Hfa : frame_at fs' (Some i) = Some (split_lines text))
    by (rewrite frame_at_in_range by lia; exact Hat).
  split; [exact Hfa | ]. split.
  { intros j Hj Hne. rewrite !frame_at_in_range by lia.
    apply Hother. lia. }
  split; [cbn [App.index setFrames]; exact Hi | ].
  split; [reflexivity | ].
  unfold preview, frame_text. cbn [App.frames App.index setFrames].
  rewrite Hi, Hfa, join_split_lines. reflexivity.
Qed.

Lemma edit_replaces_current_frame_witness :
  App.frames paused_state = Some [["@"]; ["%"]; ["#"]]%string
  /\ App.index paused_state = Some 0%Z
  /\ (0 <= 0 < Z.of_nat (List.length [["@"]; ["%"]; ["#"]]%string))%Z
  /\ exists (s' : App.State) (fs' : list FrameAscii),
       applyFrameEdit "ab" paused_state = Some s'
       /\ App.frames s' = Some fs'
       /\ List.length fs' = List.length [["@"]; ["%"]; ["#"]]%string
       /\ frame_at fs' (Some 0%Z) = Some (split_lines "ab")
       /\ (forall j, (0 <= j)%Z -> j <> 0%Z ->
                     frame_at fs' (Some j)
                     = frame_at [["@"]; ["%"]; ["#"]]%string (Some j))
       /\ App.index s' = App.index paused_state
       /\ App.playing s' = App.playing paused_state
       /\ preview s' = Ok "ab"%string.
Proof.
  assert (H1 : App.frames paused_state = Some [["@"]; ["%"]; ["#"]]%string)
    by reflexivity.
  assert (H2 : App.index paused_state = Some 0%Z) by reflexivity.
  assert (H3 : (0 <= 0
                < Z.of_nat (List.length [["@"]; ["%"]; ["#"]]%string))%Z)
    by (cbn; lia).
  repeat (split; [assumption | ]).
  exact (edit_replaces_current_frame "ab" paused_state _ 0 H1 H2 H3).
Defined.

(** X13: the initial text of the editor and an edit are inverse: when the
    current frame has at least one row and no row holds a line feed, the
    expression [frames[index].join("\n")] gives its rows joined by line
    feeds, and an edit with that text gives back the same state. *)
Theorem edit_without_change (s : App.State) (fs : list FrameAscii)
        (i : Z) (grid : FrameAscii) :
  App.frames s = Some fs ->
  App.index s = Some i ->
  (0 <= i)%Z ->
  nth_error fs (Z.to_nat i) = Some grid ->
  grid <> [] -> Forall no_newline grid ->
  frame_text s EmptyString = Ok (join_lines grid)
  /\ applyFrameEdit (join_lines grid) s = Some s.
Proof.
  intros Hfs Hi Hpos Hgrid Hne Hrows.
  assert (Hlt : Z.to_nat i < List.length fs)
    by (apply nth_error_Some; rewrite Hgrid; discriminate).
  assert (Hrange : (0 <= i < Z.of_nat (List.length fs))%Z) by lia.
  split.
  - unfold frame_text. rewrite Hfs, Hi, frame_at_in_range by lia.
    rewrite Hgrid. reflexivity.
  - destruct (array_assign_in_range fs i (split_lines (join_lines grid))
                Hrange) as (fs' & E & Hlen & Hat & Hother).
    unfold applyFrameEdit. rewrite Hfs, Hi. cbv zeta. rewrite E.
    assert (Hsame : fs' = fs).
    { apply nth_error_ext. intros j.
      destruct (Nat.eq_dec j (Z.to_nat i)) as [-> | Hj].
      - rewrite Hat, Hgrid, split_join_lines by assumption. reflexivity.
      - apply Hother. exact Hj. }
    rewrite Hsame, <- Hfs. destruct s. reflexivity.
Qed.

Lemma edit_without_change_witness :
  App.frames busy_state_after
  = Some [["@@@@"; "@@@@"]; ["@@@@"; "@  @"]]%string
  /\ App.index busy_state_after = Some 0%Z
  /\ (0 <= 0)%Z
  /\ nth_error [["@@@@"; "@@@@"]; ["@@@@"; "@  @"]]%string (Z.to_nat 0)
     = Some ["@@@@"; "@@@@"]%string
  /\ ["@@@@"; "@@@@"]%string <> []
  /\ Forall no_newline ["@@@@"; "@@@@"]%string
  /\ frame_text busy_state_after EmptyString
     = Ok (join_lines ["@@@@"; "@@@@"]%string)
  /\ applyFrameEdit (join_lines ["@@@@"; "@@@@"]%string) busy_state_after
     = Some busy_state_after.
Proof.
  assert (H1 : App.frames busy_state_after
               = Some [["@@@@"; "@@@@"]; ["@@@@"; "@  @"]]%string)
    by reflexivity.
  assert (H2 : App.index busy_state_after = Some 0%Z) by reflexivity.
  assert (H3 : (0 <= 0)%Z) by lia.
  assert (H4 : nth_error [["@@@@"; "@@@@"]; ["@@@@"; "@  @"]]%string
                         (Z.to_nat 0) = Some ["@@@@"; "@@@@"]%string)
    by reflexivity.
  assert (H5 : ["@@@@"; "@@@@"]%string <> []) by discriminate.
  assert (H6 : Forall no_newline ["@@@@"; "@@@@"]%string).
  { repeat constructor; unfold no_newline; cbn;
      intros H; repeat (destruct H as [H | H]; [discriminate H | ]);
      exact H. }
  repeat (split; [assumption | ]).
  exact (edit_without_change busy_state_after _ 0 _ H1 H2 H3 H4 H5 H6).
Defined.

(** ** Every state of the component *)

Lemma or_default_nonzero (parsed : option Z) (d : Z) :
  d <> 0%Z -> or_default parsed d <> 0%Z.
Proof.
  intros Hd. unfold or_default.
  destruct parsed as [[ | p | p] | ]; try assumption; discriminate.
Qed.

Lemma no_newline_forall (row : string) :
  Forall (fun c => c <> newline) (list_ascii_of_string row) ->
  no_newline row.
Proof.
  unfold no_newline. intros H Hin. rewrite Forall_forall in H.
  exact (H _ Hin eq_refl).
Qed.

(** What the inner loop appends never holds a line feed, whatever the
    channels are. *)
Lemma pixel_glyph_no_newline (r g b a : option Z) (alphaThreshold : Z) :
  Forall (fun c => c <> newline)
         (list_ascii_of_string (fst (pixel_glyph r g b a alphaThreshold))).
Proof.
  unfold pixel_glyph. destruct (elem_lt a alphaThreshold); cbn [fst].
  - repeat constructor. discriminate.
  - unfold JsNum.str_at.
    destruct (JsNum.trunc _) as [n | ];
      [ | cbn; repeat constructor; discriminate ].
    destruct (JsNum.is_integer _ && (0 <=? n)%Z);
      [ | cbn; repeat constructor; discriminate ].
    destruct (String.get (Z.to_nat n) ASCII_CHARS) as [c | ] eqn:E;
      [ | cbn; repeat constructor; discriminate ].
    apply string_get_in in E. cbn. constructor; [ | constructor ].
    cbn in E. intros ->.
    repeat (destruct E as [E | E]; [discriminate E | ]). exact E.
Qed.

Lemma ascii_row_no_newline (resized : ImageData) (alphaThreshold : Z)
      (y : nat) :
  no_newline (ascii_row resized alphaThreshold y).
Proof.
  apply no_newline_forall. unfold ascii_row.
  apply (fold_left_append_chars
           (fun c => c <> newline)
           (fun x =>
              let i := (y * width resized + x) * 4 in
              fst (pixel_glyph (nth_error (data resized) i)
                               (nth_error (data resized) (i + 1))
                               (nth_error (data resized) (i + 2))
                               (nth_error (data resized) (i + 3))
                               alphaThreshold))).
  - constructor.
  - intros x _. cbv zeta. apply pixel_glyph_no_newline.
Qed.

(** Every grid the converter returns has a row, and no line feed. *)
Lemma imageDataToAscii_grid_ok
      (scale_filter : ImageData -> nat -> nat -> nat -> nat -> rgba)
      (ua : UserAgent)
      (imgData : ImageData) (W alphaThreshold : Z) (ascii : FrameAscii) :
  imageDataToAscii scale_filter ua imgData W alphaThreshold = Ok ascii ->
  grid_ok ascii.
Proof.
  intros E.
  destruct (imageDataToAscii_inv _ _ _ _ _ _ E)
    as (_ & _ & _ & _ & sh & _ & Hsh & _ & ->).
  split.
  - destruct (Z.abs_nat sh) as [ | n] eqn:En; [lia | ].
    cbn. discriminate.
  - apply Forall_forall. intros row Hrow. apply in_map_iff in Hrow.
    destruct Hrow as (y & <- & _). apply ascii_row_no_newline.
Qed.

Lemma split_lines_grid_ok (text : string) : grid_ok (split_lines text).
Proof.
  split; [apply split_lines_nonempty | ].
  induction text as [ | c rest IH]; cbn [split_lines].
  - constructor; [ | constructor ]. intros [].
  - destruct (Ascii.eqb c newline) eqn:E.
    + constructor; [intros [] | exact IH].
    + destruct (split_lines rest) as [ | r rs].
      * constructor; [ | constructor ]. unfold no_newline. cbn.
        intros [H | []]. subst c. rewrite Ascii.eqb_refl in E. discriminate.
      * inversion IH as [ | ? ? Hr Hrs]; subst. constructor; [ | exact Hrs].
        unfold no_newline in *. cbn. intros [H | H]; [ | exact (Hr H)].
        subst c. rewrite Ascii.eqb_refl in E. discriminate.
Qed.

Lemma decode_ok
      (scale_filter : ImageData -> nat -> nat -> nat -> nat -> rgba)
      (ua : UserAgent)
      (gif : Gifuct.ParsedGif) (s s' : App.State) :
  decodeGifFromBytes scale_filter ua gif s = Ok s' ->
  state_ok s -> state_ok s'.
Proof.
  intros H.
  destruct (decodeGifFromBytes_inv _ _ _ _ _ H) as (out & ctx' & Hr & ->).
  intros (Hw & Hf & Ha & _). unfold state_ok.
  cbn [App.width App.fps App.alphaThreshold App.frames App.index App.playing
       setIndex setFrames].
  repeat (split; [assumption | ]).
  assert (Hall : Forall grid_ok out).
  { refine (render_frames_forall scale_filter ua _ _ _ _ grid_ok _ _ _ _ _ _
              (Forall_nil _) Hr).
    intros full ascii _ _ E.
    exact (imageDataToAscii_grid_ok _ _ _ _ _ _ E). }
  destruct out as [ | g out']; [reflexivity | ].
  split; [ | exact Hall ].
  exists 0%Z. split; [reflexivity | cbn [List.length]; lia].
Qed.

(** A state with frames renders exactly when the list is not empty. *)
Lemma renders_frames (s : App.State) :
  state_ok s -> renders s = true -> App.frames s <> Some [].
Proof.
  intros (_ & _ & _ & Hi) Hr Hfs. rewrite Hfs in Hi.
  unfold renders, preview, frame_text in Hr. rewrite Hfs, Hi in Hr.
  discriminate Hr.
Qed.

(** The index stays where it is or moves round the list. *)
Lemma index_move_ok (s : App.State) (v : option Z) :
  state_ok s ->
  (forall fs i, App.frames s = Some fs -> fs <> [] ->
                App.index s = Some i ->
                (0 <= i < Z.of_nat (List.length fs))%Z ->
                exists j, v = Some j
                          /\ (0 <= j < Z.of_nat (List.length fs))%Z) ->
  App.frames s <> None -> App.frames s <> Some [] ->
  state_ok (setIndex v s).
Proof.
  intros (Hw & Hf & Ha & Hi) Hv Hsome Hne. unfold state_ok.
  cbn [App.width App.fps App.alphaThreshold App.frames App.index App.playing
       setIndex].
  repeat (split; [assumption | ]).
  destruct (App.frames s) as [[ | g fs'] | ] eqn:Hfs;
    [now elim Hne | | now elim Hsome].
  destruct Hi as [(i & Hi & Hrange) Hall]. split; [ | exact Hall].
  destruct (Hv _ i eq_refl ltac:(discriminate) Hi Hrange) as (j & -> & Hj).
  exists j. split; [reflexivity | exact Hj].
Qed.

Lemma setPlaying_ok (s : App.State) (v : bool) :
  state_ok s -> App.frames s <> None -> state_ok (setPlaying v s).
Proof.
  intros (Hw & Hf & Ha & Hi) Hsome. unfold state_ok.
  cbn [App.width App.fps App.alphaThreshold App.frames App.index App.playing
       setPlaying].
  repeat (split; [assumption | ]).
  destruct (App.frames s) as [[ | g fs'] | ]; [exact Hi | exact Hi | ].
  now elim Hsome.
Qed.

(** An edit keeps the frame list a plain list, and the state well
    formed. *)
Lemma applyFrameEdit_ok (text : string) (s : App.State) :
  state_ok s ->
  exists s', applyFrameEdit text s = Some s' /\ state_ok s'.
Proof.
  intros Hok. assert (Hok' := Hok). destruct Hok' as (Hw & Hf & Ha & Hi).
  unfold applyFrameEdit. destruct (App.frames s) as [fs | ] eqn:Hfs;
    [ | exists s; split; [reflexivity | exact Hok] ].
  cbv zeta. destruct fs as [ | g fs'].
  - rewrite Hi. cbn. eexists. split; [reflexivity | ].
    unfold state_ok.
    cbn [App.width App.fps App.alphaThreshold App.frames App.index
         App.playing setFrames].
    repeat (split; [assumption | ]). split.
    + exists 0%Z. split; [exact Hi | cbn; lia].
    + constructor; [apply split_lines_grid_ok | constructor].
  - destruct Hi as [(i & Hi & Hrange) Hall]. rewrite Hi.
    destruct (array_assign_in_range (g :: fs') i (split_lines text) Hrange)
      as (fs2 & E & Hlen & Hat & Hother).
    rewrite E. eexists. split; [reflexivity | ].
    unfold state_ok.
    cbn [App.width App.fps App.alphaThreshold App.frames App.index
         App.playing setFrames].
    repeat (split; [assumption | ]).
    destruct fs2 as [ | g2 fs2'] eqn:E2; [discriminate Hlen | ].
    rewrite <- E2 in *. split.
    + exists i. split; [exact Hi | rewrite Hlen; exact Hrange].
    + apply Forall_forall. intros grid Hin.
      apply In_nth_error in Hin. destruct Hin as [j Hj].
      destruct (Nat.eq_dec j (Z.to_nat i)) as [-> | Hne].
      * rewrite Hat in Hj. injection Hj as <-. apply split_lines_grid_ok.
      * rewrite (Hother j Hne) in Hj. apply nth_error_In in Hj.
        rewrite Forall_forall in Hall. exact (Hall _ Hj).
Qed.

Lemma initial_state_ok : state_ok initial_state.
Proof.
  unfold state_ok, initial_state, DEFAULT_WIDTH. cbn.
  repeat split; discriminate.
Qed.

Lemma ui_step_ok
      (scale_filter : ImageData -> nat -> nat -> nat -> nat -> rgba)
      (ua : UserAgent)
      (e : ui_event) (s s' : App.State) :
  state_ok s -> ui_step scale_filter ua e s = Some s' -> state_ok s'.
Proof.
  intros Hok. unfold ui_step. destruct (renders s) eqn:Hr; [ | discriminate].
  pose proof (renders_frames s Hok Hr) as Hne.
  destruct e; intros H; try (injection H as <-).
  - unfold timer_tick. destruct (App.frames s) as [fs | ] eqn:Hfs;
      [ | exact Hok ].
    destruct (App.playing s); [ | exact Hok ].
    apply index_move_ok; [exact Hok | | rewrite Hfs; discriminate
                          | rewrite Hfs; exact Hne ].
    intros fs0 i Hfs0 Hfs1 Hi Hrange. rewrite Hi.
    assert (fs0 = fs) by congruence. subst fs0.
    rewrite (js_rem_next i _ Hrange). eexists. split; [reflexivity | ].
    apply Z.mod_pos_bound. lia.
  - unfold click_prev. destruct (App.frames s) as [fs | ] eqn:Hfs;
      [ | exact Hok ].
    cbv zeta.
    apply index_move_ok; [exact Hok | | rewrite Hfs; discriminate
                          | rewrite Hfs; exact Hne ].
    intros fs0 i Hfs0 Hfs1 Hi Hrange. rewrite Hi.
    assert (fs0 = fs) by congruence. subst fs0.
    rewrite (js_rem_prev i _ Hrange). eexists. split; [reflexivity | ].
    apply Z.mod_pos_bound. lia.
  - unfold click_next. destruct (App.frames s) as [fs | ] eqn:Hfs;
      [ | exact Hok ].
    apply index_move_ok; [exact Hok | | rewrite Hfs; discriminate
                          | rewrite Hfs; exact Hne ].
    intros fs0 i Hfs0 Hfs1 Hi Hrange. rewrite Hi.
    assert (fs0 = fs) by congruence. subst fs0.
    rewrite (js_rem_next i _ Hrange). eexists. split; [reflexivity | ].
    apply Z.mod_pos_bound. lia.
  - unfold click_play. destruct (App.frames s) as [fs | ] eqn:Hfs;
      [ | exact Hok ].
    apply setPlaying_ok; [exact Hok | rewrite Hfs; discriminate].
  - unfold click_stop. destruct (App.frames s) as [fs | ] eqn:Hfs;
      [ | exact Hok ].
    apply setPlaying_ok; [exact Hok | rewrite Hfs; discriminate].
  - exact Hok.
  - destruct Hok as (Hw & Hf & Ha & Hi). unfold state_ok, change_width.
    cbn [App.width App.fps App.alphaThreshold App.frames App.index
         App.playing setWidth].
    split; [apply or_default_nonzero; discriminate | auto].
  - destruct Hok as (Hw & Hf & Ha & Hi). unfold state_ok, change_fps.
    cbn [App.width App.fps App.alphaThreshold App.frames App.index
         App.playing setFps].
    split; [exact Hw | ].
    split; [apply or_default_nonzero; discriminate | auto].
  - destruct Hok as (Hw & Hf & Ha & Hi).
    unfold state_ok, change_alphaThreshold.
    cbn [App.width App.fps App.alphaThreshold App.frames App.index
         App.playing setAlphaThreshold].
    split; [exact Hw | ]. split; [exact Hf | ].
    split; [apply or_default_nonzero; discriminate | auto].
  - destruct (decodeGifFromBytes scale_filter ua gif s) as [s1 | err] eqn:E;
      injection H as <-; [exact (decode_ok _ _ _ _ _ E Hok) | exact Hok].
  - destruct (applyFrameEdit_ok text s Hok) as (s1 & E & Hok1).
    rewrite E in H. injection H as <-. exact Hok1.
Qed.

Lemma reachable_state_ok
      (scale_filter : ImageData -> nat -> nat -> nat -> nat -> rgba)
      (ua : UserAgent)
      (s : App.State) :
  reachable scale_filter ua s -> state_ok s.
Proof.
  induction 1 as [ | e s s' _ IH Hstep].
  - exact initial_state_ok.
  - exact (ui_step_ok scale_filter ua e s s' IH Hstep).
Qed.

(** X14: in every state the component can reach, whatever the events and
    the animations loaded: the output width, the frame rate and the alpha
    threshold are not zero; before the first animation the index is 0 and
    nothing plays; with [N > 0] frames the index is an integer in
    [[0, N)], every frame has at least one row and no row holds a line
    feed; and an edit always finds a place for its lines, so the frame
    list never gets a hole or a stray property. *)
Theorem reachable_states_are_ok
        (scale_filter : ImageData -> nat -> nat -> nat -> nat -> rgba)
        (ua : UserAgent)
        (s : App.State) :
  reachable scale_filter ua s ->
  state_ok s
  /\ forall text : string,
       exists s', applyFrameEdit text s = Some s' /\ state_ok s'.
Proof.
  intros Hr. pose proof (reachable_state_ok scale_filter ua s Hr) as Hok.
  split; [exact Hok | ].
  intros text. exact (applyFrameEdit_ok text s Hok).
Qed.

Lemma reachable_states_are_ok_witness :
  reachable nearest_neighbour example_agent loaded_state
  /\ state_ok loaded_state
  /\ forall text : string,
       exists s', applyFrameEdit text loaded_state = Some s' /\ state_ok s'.
Proof.
  assert (Hr : reachable nearest_neighbour example_agent loaded_state).
  { apply (reachable_step nearest_neighbour example_agent
             (UiDecode scenario_gif)
             (change_width (Some 4%Z) initial_state)).
    - exact (reachable_step nearest_neighbour example_agent (UiWidth (Some 4%Z))
               initial_state _ (reachable_initial _ _) eq_refl).
    - vm_compute. reflexivity. }
  split; [exact Hr | ].
  exact (reachable_states_are_ok nearest_neighbour example_agent _ Hr).
Defined.

(** X15: in every state the component can reach, the preview is the
    placeholder while no animation is loaded; with frames it is the rows
    of one of them joined by line feeds, and splitting that text at the
    line feeds gives the rows back; it raises a [TypeError] exactly when
    the frame list is empty. *)
Theorem preview_of_reachable
        (scale_filter : ImageData -> nat -> nat -> nat -> nat -> rgba)
        (ua : UserAgent)
        (s : App.State) :
  reachable scale_filter ua s ->
  match App.frames s with
  | None => preview s = Ok "No frames yet."%string
  | Some [] => preview s = Err TypeError
  | Some fs =>
      exists grid, In grid fs /\ preview s = Ok (join_lines grid)
                   /\ split_lines (join_lines grid) = grid
  end.
Proof.
  intros Hr. pose proof (reachable_state_ok scale_filter ua s Hr) as Hok.
  destruct Hok as (_ & _ & _ & Hi). unfold preview, frame_text.
  destruct (App.frames s) as [[ | g fs'] | ]; [ | | reflexivity ].
  - rewrite Hi. reflexivity.
  - destruct Hi as [(i & -> & Hrange) Hall].
    rewrite frame_at_in_range by lia.
    destruct (nth_error (g :: fs') (Z.to_nat i)) as [grid | ] eqn:E.
    + exists grid. apply nth_error_In in E.
      split; [exact E | ]. split; [reflexivity | ].
      rewrite Forall_forall in Hall. destruct (Hall _ E) as [Hne Hrows].
      exact (split_join_lines grid Hne Hrows).
    + apply nth_error_None in E. lia.
Qed.

Lemma preview_of_reachable_witness :
  reachable nearest_neighbour example_agent loaded_state
  /\ exists grid,
       In grid [["@@@@"; "@@@@"]; ["@@@@"; "@  @"]]%string
       /\ preview loaded_state = Ok (join_lines grid)
       /\ split_lines (join_lines grid) = grid.
Proof.
  assert (Hr : reachable nearest_neighbour example_agent loaded_state).
  { apply (reachable_step nearest_neighbour example_agent
             (UiDecode scenario_gif)
             (change_width (Some 4%Z) initial_state)).
    - exact (reachable_step nearest_neighbour example_agent (UiWidth (Some 4%Z))
               initial_state _ (reachable_initial _ _) eq_refl).
    - vm_compute. reflexivity. }
  split; [exact Hr | ].
  exact (preview_of_reachable nearest_neighbour example_agent _ Hr).
Defined.
